(** * Guideline Refresher: a shallow embedding of [refresh_guidelines.py]

    The Python class [GuidelineRefresher] is embedded as pure functions over
    an explicit state (the [area], the configuration, the [findings]
    dictionary and the [metrics] counter) and an explicit world (the answers of
    [git] and [gh], the file tree under the area, the files written under
    [.claude/], the clock).

    Conventions of the embedding:
    - Python [str] is [string]; the case predicates and conversions are the
      ASCII ones (characters above 127 are uncased).
    - [dict], [Counter] and [defaultdict] are insertion-ordered association
      lists ([Dict.t]): the source iterates over them and renders them in
      that order.
    - exceptions that leave a method are a [result]; Python's bounded call
      stack is a [fuel] argument of the two mutually recursive methods.
    - [print] only writes progress lines and is left out.
    - a percentage ([count / total * 100], a binary float in the source) is
      an exact rational here, and ["{:.1f}"] rounds it half-to-even. *)

From Stdlib Require Import List String Ascii ZArith QArith Bool Lia Arith.
From Stdlib Require Import Permutation DecimalString.
From Stdlib Require Import Sorted DecimalPos.
Import ListNotations.

Open Scope string_scope.
Open Scope Z_scope.

(** ** Exceptions *)

Inductive exn : Type :=
| SystemExit (code : Z)
| RecursionError
| KeyError (key : string)
| IndexError.

Inductive result (A : Type) : Type :=
| Ok (a : A)
| Raise (e : exn).

Arguments Ok {A} a.
Arguments Raise {A} e.

Definition bind {A B : Type} (m : result A) (k : A -> result B) : result B :=
  match m with
  | Ok a => k a
  | Raise e => Raise e
  end.

Notation "x <- m ;; k" := (bind m (fun x => k))
  (at level 61, m at next level, right associativity).

(** ** Python string methods *)

Module PyStr.

Definition nl : string := String (ascii_of_nat 10) EmptyString.
Definition dquote : string := String (ascii_of_nat 34) EmptyString.
Definition backslash : string := String (ascii_of_nat 92) EmptyString.

Definition isupper_char (c : ascii) : bool :=
  let n := nat_of_ascii c in (65 <=? n)%nat && (n <=? 90)%nat.

Definition islower_char (c : ascii) : bool :=
  let n := nat_of_ascii c in (97 <=? n)%nat && (n <=? 122)%nat.

Definition isdigit_char (c : ascii) : bool :=
  let n := nat_of_ascii c in (48 <=? n)%nat && (n <=? 57)%nat.

(** [str.isspace] on one character: TAB..CR, FS..US and the space. *)
Definition isspace_char (c : ascii) : bool :=
  let n := nat_of_ascii c in
  ((9 <=? n)%nat && (n <=? 13)%nat) || ((28 <=? n)%nat && (n <=? 32)%nat).

Definition lower_char (c : ascii) : ascii :=
  if isupper_char c then ascii_of_nat (nat_of_ascii c + 32) else c.

Definition upper_char (c : ascii) : ascii :=
  if islower_char c then ascii_of_nat (nat_of_ascii c - 32) else c.

Fixpoint map_chars (f : ascii -> ascii) (s : string) : string :=
  match s with
  | EmptyString => EmptyString
  | String c t => String (f c) (map_chars f t)
  end.

(** [s.lower()] *)
Definition lower (s : string) : string := map_chars lower_char s.

Fixpoint any_char (p : ascii -> bool) (s : string) : bool :=
  match s with
  | EmptyString => false
  | String c t => p c || any_char p t
  end.

(** [s.islower()]: no upper-case character and at least one lower-case one. *)
Definition islower (s : string) : bool :=
  negb (any_char isupper_char s) && any_char islower_char s.

(** [s.startswith(p)] *)
Fixpoint startswith (s p : string) {struct p} : bool :=
  match p with
  | EmptyString => true
  | String a p' =>
      match s with
      | EmptyString => false
      | String b s' => Ascii.eqb a b && startswith s' p'
      end
  end.

(** [needle in hay] *)
Fixpoint contains (needle hay : string) : bool :=
  startswith hay needle ||
  match hay with
  | EmptyString => false
  | String _ t => contains needle t
  end.

(** [s[:n]] *)
Fixpoint take (n : nat) (s : string) : string :=
  match n, s with
  | S k, String c t => String c (take k t)
  | _, _ => EmptyString
  end.

(** [s[n:]] *)
Fixpoint drop (n : nat) (s : string) : string :=
  match n, s with
  | S k, String _ t => drop k t
  | _, _ => s
  end.

(** [s.endswith(p)] *)
Definition endswith (s p : string) : bool :=
  (String.length p <=? String.length s)%nat &&
  String.eqb (drop (String.length s - String.length p) s) p.

(** [s.replace(old, new)] for a non-empty [old] (the source only passes
    non-empty literals): matches are taken left to right and do not overlap.
    [skip] counts the characters of a match still to be dropped. *)
Fixpoint replace_aux (old new : string) (skip : nat) (s : string) : string :=
  match s with
  | EmptyString => EmptyString
  | String c t =>
      match skip with
      | S k => replace_aux old new k t
      | O =>
          if startswith s old
          then new ++ replace_aux old new (String.length old - 1) t
          else String c (replace_aux old new O t)
      end
  end.

Definition replace (old new s : string) : string :=
  match old with
  | EmptyString => s
  | _ => replace_aux old new O s
  end.

(** [s.title()] *)
Fixpoint title_aux (prev_cased : bool) (s : string) : string :=
  match s with
  | EmptyString => EmptyString
  | String c t =>
      String (if prev_cased then lower_char c else upper_char c)
             (title_aux (isupper_char c || islower_char c) t)
  end.

Definition title (s : string) : string := title_aux false s.

Fixpoint lstrip (s : string) : string :=
  match s with
  | EmptyString => EmptyString
  | String c t => if isspace_char c then lstrip t else s
  end.

Fixpoint rstrip (s : string) : string :=
  match s with
  | EmptyString => EmptyString
  | String c t =>
      match rstrip t with
      | EmptyString => if isspace_char c then EmptyString else String c EmptyString
      | t' => String c t'
      end
  end.

(** [s.strip()] *)
Definition strip (s : string) : string := rstrip (lstrip s).

(** [s.split(sep)] for a one-character separator: never the empty list. *)
Fixpoint split_char (sep : ascii) (s : string) : list string :=
  match s with
  | EmptyString => [EmptyString]
  | String c t =>
      if Ascii.eqb c sep then EmptyString :: split_char sep t
      else match split_char sep t with
           | [] => [String c EmptyString]
           | w :: ws => String c w :: ws
           end
  end.

Definition splitlines_nl (s : string) : list string :=
  split_char (ascii_of_nat 10) s.

(** [s.split(' ', 1)[1]] when [' ' in s]: what follows the first space. *)
Fixpoint after_first_space (s : string) : string :=
  match s with
  | EmptyString => EmptyString
  | String c t => if Ascii.eqb c " "%char then t else after_first_space t
  end.

(** [sep.join(l)] *)
Fixpoint join (sep : string) (l : list string) : string :=
  match l with
  | [] => EmptyString
  | [x] => x
  | x :: r => x ++ sep ++ join sep r
  end.

(** [str(n)] for an [int]. *)
Definition str_of_Z (z : Z) : string := NilEmpty.string_of_int (Z.to_int z).

Definition str_of_nat (n : nat) : string := str_of_Z (Z.of_nat n).

(** [int(s)] for a string of decimal digits. *)
Fixpoint int_of_digits_aux (acc : Z) (s : string) : Z :=
  match s with
  | EmptyString => acc
  | String c t => int_of_digits_aux (10 * acc + (Z.of_nat (nat_of_ascii c) - 48)) t
  end.

Definition int_of_digits (s : string) : Z := int_of_digits_aux 0 s.

(** The longest prefix of decimal digits. *)
Fixpoint span_digits (s : string) : string :=
  match s with
  | EmptyString => EmptyString
  | String c t => if isdigit_char c then String c (span_digits t) else EmptyString
  end.

(** [n] rendered on at least [width] digits, zero padded ([%02d], [%04d]). *)
Definition zero_pad (width : nat) (n : Z) : string :=
  let s := str_of_Z n in
  String.concat EmptyString (repeat "0" (width - String.length s)) ++ s.

(** ["{:.1f}".format(q)]: [q] rounded half-to-even to one decimal. *)
Definition tenths (q : Q) : Z :=
  let n := Qnum q * 10 in
  let d := Zpos (Qden q) in
  let fl := n / d in
  let r := n mod d in
  match 2 * r ?= d with
  | Lt => fl
  | Gt => fl + 1
  | Eq => if Z.even fl then fl else fl + 1
  end.

Definition format_1f (q : Q) : string :=
  let t := tenths q in
  let a := Z.abs t in
  (if t <? 0 then "-" else EmptyString)
    ++ str_of_Z (a / 10) ++ "." ++ str_of_Z (a mod 10).

End PyStr.

Import PyStr.

(** ** Insertion-ordered dictionaries ([dict], [Counter], [defaultdict]) *)

Module Dict.

Section WithValues.
Context {V : Type}.

Definition t : Type := list (string * V).

Definition empty : t := [].

(** [d.get(k)] *)
Fixpoint get (d : t) (k : string) : option V :=
  match d with
  | [] => None
  | (k', v) :: r => if String.eqb k' k then Some v else get r k
  end.

(** [d[k] = v]: an existing key keeps its position, a new one goes last. *)
Fixpoint set (d : t) (k : string) (v : V) : t :=
  match d with
  | [] => [(k, v)]
  | (k', v') :: r =>
      if String.eqb k' k then (k', v) :: r else (k', v') :: set r k v
  end.

(** [k in d] *)
Definition mem (d : t) (k : string) : bool :=
  match get d k with
  | Some _ => true
  | None => false
  end.

Definition keys (d : t) : list string := map fst d.
Definition values (d : t) : list V := map snd d.

(** [dict(items)] *)
Definition of_items (items : list (string * V)) : t :=
  fold_left (fun d kv => set d (fst kv) (snd kv)) items empty.
End WithValues.

Arguments t V : clear implicits.

End Dict.

(** [collections.Counter]: a missing key reads as 0 and is not inserted. *)
Definition Counter : Type := Dict.t Z.

Definition count (m : Counter) (k : string) : Z :=
  match Dict.get m k with
  | Some v => v
  | None => 0
  end.

(** [m[k] += 1] *)
Definition incr (m : Counter) (k : string) : Counter :=
  Dict.set m k (count m k + 1).

(** [sorted(l, key=..., reverse=True)]: stable, largest key first. *)
Fixpoint insert_desc {A : Type} (key : A -> Z) (x : A) (l : list A) : list A :=
  match l with
  | [] => [x]
  | y :: r => if key y <=? key x then x :: l else y :: insert_desc key x r
  end.

Definition sorted_desc {A : Type} (key : A -> Z) (l : list A) : list A :=
  fold_right (insert_desc key) [] l.

(** [Counter.most_common(n)] is [sorted(items, key=count, reverse=True)[:n]]. *)
Definition most_common (n : nat) (c : Counter) : list (string * Z) :=
  firstn n (sorted_desc snd c).

(** [max(items, key=lambda x: x[1])]: the first item of largest count. *)
Fixpoint max_by_count (best : string * Z) (l : list (string * Z)) : string * Z :=
  match l with
  | [] => best
  | x :: r => max_by_count (if snd best <? snd x then x else best) r
  end.

(** [sorted(set_of_strings)] *)
Fixpoint insert_str (x : string) (l : list string) : list string :=
  match l with
  | [] => [x]
  | y :: r => if String.leb x y then x :: l else y :: insert_str x r
  end.

Definition sorted_str (l : list string) : list string :=
  fold_right insert_str [] l.

Definition mem_str (x : string) (l : list string) : bool :=
  existsb (String.eqb x) l.

(** [set(l)] as a duplicate-free list. *)
Definition set_of (l : list string) : list string :=
  fold_left (fun acc x => if mem_str x acc then acc else (acc ++ [x])%list) l [].

(** ** [pathlib] paths (POSIX flavour) *)

Module Pathlib.

(** A path is the list of its [parts]; an absolute path starts with ["/"]. *)
Definition Path : Type := list string.

Definition is_absolute (p : Path) : bool :=
  match p with
  | root :: _ => String.eqb root "/"
  | [] => false
  end.

(** The parts of one string segment: empty and ["."] components vanish. *)
Definition parse (seg : string) : Path :=
  let comps :=
    filter (fun c => negb (String.eqb c EmptyString || String.eqb c "."))
           (split_char "/"%char seg) in
  if startswith seg "/" then "/" :: comps else comps.

(** [p / seg] *)
Definition joinpath (p : Path) (seg : string) : Path :=
  let q := parse seg in
  if is_absolute q then q else (p ++ q)%list.

(** [p.name] *)
Definition name (p : Path) : string :=
  match rev p with
  | [] => EmptyString
  | n :: _ => if String.eqb n "/" then EmptyString else n
  end.

(** [name.rfind('.')] *)
Fixpoint rfind_dot (s : string) : option nat :=
  match s with
  | EmptyString => None
  | String a t =>
      match rfind_dot t with
      | Some i => Some (S i)
      | None => if Ascii.eqb a "."%char then Some O else None
      end
  end.

(** The index of the dot that starts the suffix: [0 < i < len(name) - 1]. *)
Definition suffix_index (n : string) : option nat :=
  match rfind_dot n with
  | Some i => if (0 <? i)%nat && (i <? String.length n - 1)%nat then Some i else None
  | None => None
  end.

(** [p.suffix] and [p.stem], on the name. *)
Definition suffix_of (n : string) : string :=
  match suffix_index n with
  | Some i => drop i n
  | None => EmptyString
  end.

Definition stem_of (n : string) : string :=
  match suffix_index n with
  | Some i => take i n
  | None => n
  end.

Definition suffix (p : Path) : string := suffix_of (name p).
Definition stem (p : Path) : string := stem_of (name p).

(** [any(part.startswith('.') for part in p.parts)] *)
Definition has_hidden_part (p : Path) : bool :=
  existsb (fun part => startswith part ".") p.

Definition eqb (p q : Path) : bool :=
  if list_eq_dec string_dec p q then true else false.

(** The entries below a directory. *)
#[warnings="-register-all"]
Inductive node : Type :=
| File (n : string)
| Dir (n : string) (children : list node).

Record entry : Type := mk_entry { entry_path : Path; entry_is_file : bool }.

(** [base.rglob('*')]: every entry below [base], directories before their
    contents, in the order the host lists them. *)
Fixpoint rglob_node (base : Path) (n : node) : list entry :=
  match n with
  | File f => [mk_entry (base ++ [f])%list true]
  | Dir d children =>
      mk_entry (base ++ [d])%list false
        :: flat_map (rglob_node (base ++ [d])%list) children
  end.

Definition rglob (base : Path) (children : list node) : list entry :=
  flat_map (rglob_node base) children.

End Pathlib.

Import Pathlib.

(** ** The refresher's state and its world *)

(** One entry of [findings['refactor_commits']]. *)
Record commit_record : Type :=
  mk_commit { message : string; type_ : string }.

(** The three shapes of value the [findings] dictionary holds. *)
Inductive finding : Type :=
| Records (l : list commit_record)
| Counts (d : Dict.t Z)
| Samples (l : list string).

(** The configuration: [analysis_depth] maps a depth name to its preset (a
    dictionary of integers), [output_format] holds two templates and the
    optional [backup_previous] flag. *)
Record Config : Type := mk_config {
  analysis_depth : Dict.t (Dict.t Z);
  guidelines_file : string;
  report_file : string;
  backup_previous : option bool
}.

Definition default_config : Config :=
  {| analysis_depth :=
       [ ("quick", [("pr_limit", 20); ("commit_days", 30); ("min_pattern_frequency", 3)]);
         ("standard", [("pr_limit", 50); ("commit_days", 90); ("min_pattern_frequency", 5)]);
         ("deep", [("pr_limit", 100); ("commit_days", 180); ("min_pattern_frequency", 3)]) ];
     guidelines_file := ".claude/guidelines/{area}.md";
     report_file := ".claude/reports/guideline-refresh-{date}.md";
     backup_previous := Some true |}.

Record Refresher : Type := mk_refresher {
  area : string;
  repo_root : Path;
  config : Config;
  findings : Dict.t finding;
  metrics : Counter
}.

(** [GuidelineRefresher.__init__] once the repository root and the
    configuration are resolved. *)
Definition new_refresher (a : string) (root : Path) (c : Config) : Refresher :=
  {| area := a; repo_root := root; config := c;
     findings := Dict.empty; metrics := Dict.empty |}.

Definition with_findings (r : Refresher) (f : Dict.t finding) : Refresher :=
  {| area := area r; repo_root := repo_root r; config := config r;
     findings := f; metrics := metrics r |}.

Definition with_metrics (r : Refresher) (m : Counter) : Refresher :=
  {| area := area r; repo_root := repo_root r; config := config r;
     findings := findings r; metrics := m |}.

Record review : Type := mk_review { review_body : string }.

(** A merged pull request as [gh pr list --json] returns it; a missing or
    null [body] is [None]. *)
Record pull_request : Type := mk_pr {
  pr_title : string;
  pr_body : option string;
  pr_reviews : list review;
  pr_files : list string
}.

(** What the [gh] command line answers. *)
Inductive gh_answer : Type :=
| GhMissing
| GhListFailed
| GhBadJson
| GhOk (prs : list pull_request).

Record datetime : Type := mk_datetime {
  year : Z; month : Z; day : Z; hour : Z; minute : Z; second : Z
}.

(** The world of one run. [git_log days] is the standard output of
    [git log --since=... --oneline -- area] for the window of [days] days that
    ends now ([None] when the command fails),
    [gh_pr_list limit] the answer of [gh], [area_tree] the entries below
    [repo_root / area] ([None] when that path does not exist), [files] the
    text files written so far, [clock] the successive readings of
    [datetime.now()]. *)
Record World : Type := mk_world {
  git_log : Z -> option string;
  gh_pr_list : Z -> gh_answer;
  area_tree : option (list node);
  files : list (Path * string);
  clock : nat -> datetime;
  ticks : nat
}.

Definition with_files (w : World) (fs : list (Path * string)) : World :=
  {| git_log := git_log w; gh_pr_list := gh_pr_list w; area_tree := area_tree w;
     files := fs; clock := clock w; ticks := ticks w |}.

(** [datetime.now()] *)
Definition now (w : World) : datetime * World :=
  (clock w (ticks w),
   {| git_log := git_log w; gh_pr_list := gh_pr_list w; area_tree := area_tree w;
      files := files w; clock := clock w; ticks := S (ticks w) |}).

Fixpoint read_file (fs : list (Path * string)) (p : Path) : option string :=
  match fs with
  | [] => None
  | (q, text) :: r => if Pathlib.eqb q p then Some text else read_file r p
  end.

(** [open(p, 'w').write(text)] *)
Fixpoint write_file (fs : list (Path * string)) (p : Path) (text : string)
  : list (Path * string) :=
  match fs with
  | [] => [(p, text)]
  | (q, old) :: r =>
      if Pathlib.eqb q p then (q, text) :: r else (q, old) :: write_file r p text
  end.

Fixpoint remove_file (fs : list (Path * string)) (p : Path) : list (Path * string) :=
  match fs with
  | [] => []
  | (q, old) :: r => if Pathlib.eqb q p then r else (q, old) :: remove_file r p
  end.

(** [src.rename(dst)]: [dst] is replaced when it exists. *)
Definition rename_file (fs : list (Path * string)) (src dst : Path)
  : list (Path * string) :=
  match read_file fs src with
  | Some text => write_file (remove_file fs src) dst text
  | None => fs
  end.

(** [strftime] with the three formats of the source. *)
Definition strftime_minutes (d : datetime) : string :=
  zero_pad 4 (year d) ++ "-" ++ zero_pad 2 (month d) ++ "-" ++ zero_pad 2 (day d)
    ++ " " ++ zero_pad 2 (hour d) ++ ":" ++ zero_pad 2 (minute d).

Definition strftime_seconds (d : datetime) : string :=
  strftime_minutes d ++ ":" ++ zero_pad 2 (second d).

Definition strftime_compact (d : datetime) : string :=
  zero_pad 4 (year d) ++ zero_pad 2 (month d) ++ zero_pad 2 (day d)
    ++ "_" ++ zero_pad 2 (hour d) ++ zero_pad 2 (minute d) ++ zero_pad 2 (second d).

(** ** [analyze_git_history] *)

(** [any(kw in text for kw in keywords)] *)
Definition any_keyword (keywords : list string) (text : string) : bool :=
  existsb (fun kw => contains kw text) keywords.

Definition refactor_keywords : list string :=
  ["refactor"; "improve"; "update"; "migrate"; "modernize"].

Definition tech_keywords : list (string * list string) :=
  [ ("typescript", ["typescript"; "ts"; ".tsx"]);
    ("react", ["react"; "jsx"; "hook"; "component"]);
    ("vue", ["vue"; "composition"; "vue3"]);
    ("testing", ["test"; "spec"; "jest"; "vitest"; "cypress"]);
    ("async", ["async"; "await"; "promise"]);
    ("performance", ["performance"; "optimize"; "lazy"; "memo"]) ].

(** [commit.split(' ', 1)[1] if ' ' in commit else commit] *)
Definition commit_message (commit : string) : string :=
  if contains " " commit then after_first_space commit else commit.

(** [findings[key].append(c)] on the [defaultdict(list)]. *)
Definition append_record (f : Dict.t finding) (key : string) (c : commit_record)
  : Dict.t finding :=
  match Dict.get f key with
  | Some (Records l) => Dict.set f key (Records (l ++ [c])%list)
  | _ => Dict.set f key (Records [c])
  end.

(** The loop over [tech_keywords.items()] for one lower-cased message. *)
Definition track_technologies (message_lower : string) (m : Counter) : Counter :=
  fold_left
    (fun m tk =>
       if any_keyword (snd tk) message_lower then incr m ("tech_" ++ fst tk) else m)
    tech_keywords m.

(** The body of the loop over the commits. *)
Definition analyze_commit (r : Refresher) (commit : string) : Refresher :=
  let msg := commit_message commit in
  let message_lower := lower msg in
  let f :=
    if any_keyword refactor_keywords message_lower
    then append_record (findings r) "refactor_commits" (mk_commit msg "refactor")
    else findings r in
  with_metrics (with_findings r f) (track_technologies message_lower (metrics r)).

Definition nonempty (s : string) : bool := negb (String.eqb s EmptyString).

Definition analyze_git_history (w : World) (since_days : Z) (r : Refresher)
  : Refresher :=
  match git_log w since_days with
  | Some stdout =>
      let commits := filter nonempty (splitlines_nl (strip stdout)) in
      let r1 := with_metrics r
                  (Dict.set (metrics r) "total_commits" (Z.of_nat (List.length commits))) in
      fold_left analyze_commit commits r1
  | None => with_metrics r (Dict.set (metrics r) "total_commits" 0)
  end.

(** ** [analyze_pr_reviews] *)

Definition theme_patterns : list (string * list string) :=
  [ ("code_organization", ["structure"; "organize"; "directory"; "folder"; "separate"; "split"]);
    ("type_safety", ["type"; "typescript"; "interface"; "any"; "unknown"]);
    ("testing", ["test"; "coverage"; "jest"; "spec"; "unit test"; "integration test"]);
    ("performance", ["performance"; "optimize"; "slow"; "cache"; "memo"; "lazy"]);
    ("error_handling", ["error"; "exception"; "catch"; "try"; "throw"]);
    ("naming", ["naming"; "rename"; "name is"; "called"; "variable name"]);
    ("documentation", ["document"; "comment"; "readme"; "docs"; "jsdoc"]);
    ("accessibility", ["accessibility"; "a11y"; "aria"; "screen reader"]) ].

(** [len(findings[key]) < 5] followed by [findings[key].append(sample)]: reading
    the [defaultdict] inserts a missing key. *)
Definition store_sample (f : Dict.t finding) (key : string) (sample : string)
  : Dict.t finding :=
  match Dict.get f key with
  | Some (Samples l) =>
      if (List.length l <? 5)%nat then Dict.set f key (Samples (l ++ [sample])%list) else f
  | _ => Dict.set f key (Samples [sample])
  end.

(** The loop over [theme_patterns.items()] for one review body. *)
Definition track_themes (body : string) (acc : Counter * Dict.t finding)
  : Counter * Dict.t finding :=
  let body_lower := lower body in
  fold_left
    (fun acc tp =>
       if any_keyword (snd tp) body_lower
       then (incr (fst acc) (fst tp),
             store_sample (snd acc) (fst tp ++ "_feedback") (take 300 body))
       else acc)
    theme_patterns acc.

Definition analyze_review (acc : Counter * Dict.t finding) (rv : review)
  : Counter * Dict.t finding :=
  if nonempty (review_body rv) then track_themes (review_body rv) acc else acc.

Definition touches_area (a : string) (pr : pull_request) : bool :=
  existsb (fun path => contains a path) (pr_files pr).

Definition analyze_pr_reviews (w : World) (pr_limit : Z) (r : Refresher)
  : Refresher :=
  match gh_pr_list w pr_limit with
  | GhMissing => r
  | GhListFailed => r
  | GhBadJson => r
  | GhOk prs =>
      let relevant_prs := filter (touches_area (area r)) prs in
      let m := Dict.set (metrics r) "relevant_prs" (Z.of_nat (List.length relevant_prs)) in
      let '(review_themes, f) :=
        fold_left (fun acc pr => fold_left analyze_review (pr_reviews pr) acc)
                  relevant_prs (Dict.empty, findings r) in
      with_metrics
        (with_findings r
           (Dict.set f "review_themes"
              (Counts (Dict.of_items (most_common 10 review_themes)))))
        m
  end.

(** ** [analyze_file_patterns] *)

Definition code_extensions : list string :=
  [".ts"; ".tsx"; ".js"; ".jsx"; ".py"; ".java"; ".go"; ".rs"].

Inductive bucket : Type := PascalCase | snake_case | kebab_case | camelCase | mixed.

Definition bucket_name (b : bucket) : string :=
  match b with
  | PascalCase => "PascalCase"
  | snake_case => "snake_case"
  | kebab_case => "kebab-case"
  | camelCase => "camelCase"
  | mixed => "mixed"
  end.

(** [name.lower() in ['index', '__init__']] *)
Definition is_index_file (n : string) : bool :=
  mem_str (lower n) ["index"; "__init__"].

(** The [if]/[elif] chain over the base name; [name[0]] raises on [""]. *)
Definition naming_bucket (n : string) : result bucket :=
  match n with
  | EmptyString => Raise IndexError
  | String c0 _ =>
      Ok (if isupper_char c0 && negb (contains "_" n) && negb (contains "-" n)
          then PascalCase
          else if contains "_" n && islower n then snake_case
          else if contains "-" n && islower n then kebab_case
          else if islower_char c0 && negb (contains "_" n) && negb (contains "-" n)
          then camelCase
          else mixed)
  end.

(** The body of the first loop: hidden entries are skipped, files counted. *)
Definition count_entry (acc : Counter * Z) (e : entry) : Counter * Z :=
  if has_hidden_part (entry_path e) then acc
  else if entry_is_file e then
    let sfx := suffix (entry_path e) in
    (if nonempty sfx then incr (fst acc) sfx else fst acc, snd acc + 1)
  else acc.

(** What the second loop does with the base name of one code file. *)
Definition classify_stem (n : string) (np : Counter) : result Counter :=
  if is_index_file n then Ok np
  else b <- naming_bucket n ;; Ok (incr np (bucket_name b)).

(** The body of the second loop, over the same enumeration. *)
Definition name_entry (np : Counter) (e : entry) : result Counter :=
  if mem_str (suffix (entry_path e)) code_extensions && entry_is_file e
  then classify_stem (stem (entry_path e)) np
  else Ok np.

Fixpoint fold_result {A B : Type} (f : A -> B -> result A) (l : list B) (a : A)
  : result A :=
  match l with
  | [] => Ok a
  | x :: r => a' <- f a x ;; fold_result f r a'
  end.

Definition is_empty {A : Type} (l : list A) : bool :=
  match l with
  | [] => true
  | _ => false
  end.

Definition analyze_file_patterns (w : World) (r : Refresher) : result Refresher :=
  match area_tree w with
  | None => Ok r
  | Some children =>
      let area_path := joinpath (repo_root r) (area r) in
      let entries := rglob area_path children in
      let '(file_types, total_files) :=
        fold_left count_entry entries (Dict.empty, 0) in
      let f := Dict.set (findings r) "file_types"
                 (Counts (Dict.of_items (most_common 10 file_types))) in
      let m := Dict.set (metrics r) "total_files" total_files in
      naming_patterns <- fold_result name_entry entries Dict.empty ;;
      Ok (with_metrics
            (with_findings r
               (if is_empty naming_patterns then f
                else Dict.set f "naming_conventions" (Counts naming_patterns)))
            m)
  end.

(** ** [load_current_guidelines] and the sections of the guidelines *)

(** [self.area.replace('/', '_').replace('\\', '_')] *)
Definition normalized_filename (a : string) : string :=
  replace backslash "_" (replace "/" "_" a).

Definition load_path (r : Refresher) : Path :=
  joinpath (repo_root r) (".claude/guidelines/" ++ normalized_filename (area r) ++ ".md").

Definition load_current_guidelines (w : World) (r : Refresher) : option string :=
  read_file (files w) (load_path r).

(** The concatenation of a list of pieces. *)
Definition cat (pieces : list string) : string :=
  fold_right String.append EmptyString pieces.

(** [str(d)] for a dictionary of integers and for a dictionary of those; keys
    are written between single quotes, as Python does for plain identifiers. *)
Definition repr_key (k : string) : string := "'" ++ k ++ "'".

Definition repr_preset (d : Dict.t Z) : string :=
  "{" ++ join ", " (map (fun kv => repr_key (fst kv) ++ ": " ++ str_of_Z (snd kv)) d) ++ "}".

Definition repr_analysis_depth (d : Dict.t (Dict.t Z)) : string :=
  "{" ++ join ", " (map (fun kv => repr_key (fst kv) ++ ": " ++ repr_preset (snd kv)) d) ++ "}".

(** The opening f-string: title, the three header lines and the summary. *)
Definition header_section (r : Refresher) (t : datetime) : string :=
  "# Coding Guidelines: " ++ area r ++ nl ++ nl
  ++ "**Last Updated:** " ++ strftime_minutes t ++ nl
  ++ "**Auto-generated by:** Guideline Refresher Skill" ++ nl
  ++ "**Analysis Period:** " ++ repr_analysis_depth (analysis_depth (config r))
  ++ " configuration" ++ nl ++ nl
  ++ "## Analysis Summary" ++ nl ++ nl
  ++ "- **Total commits analyzed:** " ++ str_of_Z (count (metrics r) "total_commits") ++ nl
  ++ "- **Relevant PRs reviewed:** " ++ str_of_Z (count (metrics r) "relevant_prs") ++ nl
  ++ "- **Files in area:** " ++ str_of_Z (count (metrics r) "total_files") ++ nl ++ nl.

Definition tech_metrics (m : Counter) : list (string * Z) :=
  map (fun kv => (replace "tech_" EmptyString (fst kv), snd kv))
      (filter (fun kv => startswith (fst kv) "tech_") m).

Definition technology_section (r : Refresher) : string :=
  let tm := tech_metrics (metrics r) in
  if is_empty tm then EmptyString
  else "## Technology Focus" ++ nl ++ nl
       ++ "Based on commit message analysis:" ++ nl ++ nl
       ++ cat (map (fun tc =>
                      if 3 <=? snd tc
                      then "- **" ++ title (fst tc) ++ "**: " ++ str_of_Z (snd tc)
                           ++ " commits" ++ nl
                      else EmptyString)
                   (sorted_desc snd tm))
       ++ nl.

(** [findings[key]] when it is a non-empty dictionary of counts. *)
Definition counts_of (f : Dict.t finding) (key : string) : Dict.t Z :=
  match Dict.get f key with
  | Some (Counts d) => d
  | _ => []
  end.

(** [(count / total * 100) if total > 0 else 0] *)
Definition percentage (n total : Z) : Q :=
  if 0 <? total then (inject_Z n / inject_Z total * 100)%Q else 0%Q.

(** The extensions the File Organization section lists. *)
Definition listed_file_types (r : Refresher) : list (string * Z) :=
  firstn 5 (counts_of (findings r) "file_types").

Definition file_type_line (total_files : Z) (fc : string * Z) : string :=
  "- `" ++ fst fc ++ "`: " ++ str_of_Z (snd fc) ++ " files ("
  ++ format_1f (percentage (snd fc) total_files) ++ "%)" ++ nl.

Definition file_organization_section (r : Refresher) : string :=
  if is_empty (counts_of (findings r) "file_types") then EmptyString
  else "## File Organization" ++ nl ++ nl
       ++ "**Primary file types:**" ++ nl ++ nl
       ++ cat (map (file_type_line (count (metrics r) "total_files"))
                   (listed_file_types r))
       ++ nl.

Definition sum_counts (d : list (string * Z)) : Z :=
  fold_right (fun kv acc => snd kv + acc) 0 d.

Definition naming_section (r : Refresher) : string :=
  match counts_of (findings r) "naming_conventions" with
  | [] => EmptyString
  | first :: rest =>
      let nc := first :: rest in
      let total_named := sum_counts nc in
      let dominant := max_by_count first rest in
      "## Naming Conventions" ++ nl ++ nl
      ++ "**Observed naming patterns:**" ++ nl ++ nl
      ++ cat (map (fun pc =>
                     "- **" ++ fst pc ++ "**: " ++ str_of_Z (snd pc) ++ " files ("
                     ++ format_1f (percentage (snd pc) total_named) ++ "%)" ++ nl)
                  (sorted_desc snd nc))
      ++ nl ++ "**Recommendation:** Follow `" ++ fst dominant
      ++ "` pattern (dominant in " ++ str_of_Z (snd dominant) ++ " files)" ++ nl ++ nl
  end.

(** [sample.replace('\n', ' ').strip()], cut after [limit] characters. *)
Definition clean_sample (limit : nat) (sample : string) : string :=
  let c := strip (replace nl " " sample) in
  if (limit <? String.length c)%nat then take limit c ++ "..." else c.

Definition review_theme_block (f : Dict.t finding) (tc : string * Z) : string :=
  "### " ++ title (replace "_" " " (fst tc)) ++ " (" ++ str_of_Z (snd tc)
  ++ " mentions)" ++ nl ++ nl
  ++ match Dict.get f (fst tc ++ "_feedback") with
     | Some (Samples (sample :: _)) =>
         "Example feedback: " ++ dquote ++ clean_sample 200 sample ++ dquote ++ nl ++ nl
     | _ => EmptyString
     end.

Definition review_focus_section (r : Refresher) : string :=
  let themes := counts_of (findings r) "review_themes" in
  if is_empty themes then EmptyString
  else "## Code Review Focus Areas" ++ nl ++ nl
       ++ "Based on recurring themes in PR reviews:" ++ nl ++ nl
       ++ cat (map (review_theme_block (findings r)) (firstn 5 themes)).

(** [findings.get('refactor_commits')] *)
Definition refactor_commits (f : Dict.t finding) : list commit_record :=
  match Dict.get f "refactor_commits" with
  | Some (Records l) => l
  | _ => []
  end.

Definition refactor_category (msg : string) : string :=
  let m := lower msg in
  if contains "typescript" m || contains "type" m then "TypeScript Migration"
  else if contains "test" m then "Testing Improvements"
  else if contains "component" m || contains "react" m then "Component Refactoring"
  else "General Improvements".

(** [refactor_types[category].append(msg)] on the local [defaultdict(list)]. *)
Definition group_refactor (types : Dict.t (list string)) (c : commit_record)
  : Dict.t (list string) :=
  let category := refactor_category (message c) in
  match Dict.get types category with
  | Some msgs => Dict.set types category (msgs ++ [message c])%list
  | None => Dict.set types category [message c]
  end.

Definition recent_evolution_section (r : Refresher) : string :=
  let commits := refactor_commits (findings r) in
  if is_empty commits then EmptyString
  else "## Recent Evolution" ++ nl ++ nl
       ++ "**Recent refactoring themes:**" ++ nl ++ nl
       ++ cat (map (fun cm =>
                      "**" ++ fst cm ++ "** (" ++ str_of_nat (List.length (snd cm))
                      ++ " commits):" ++ nl
                      ++ cat (map (fun msg => "- " ++ msg ++ nl) (firstn 3 (snd cm)))
                      ++ nl)
                   (fold_left group_refactor (firstn 10 commits) Dict.empty)).

(** ** [_generate_recommendations] *)

Definition rec_strict_typescript : string :=
  "**Strong TypeScript usage detected.** Enforce strict type checking and avoid `any` types. "
  ++ "Consider enabling `strictNullChecks` and `noImplicitAny` in tsconfig.json.".

Definition rec_typescript_adoption : string :=
  "**TypeScript adoption in progress.** Continue migrating JavaScript files to TypeScript. "
  ++ "Define interfaces for all props and function parameters.".

Definition rec_testing : string :=
  "**Testing is a priority.** Ensure all new code includes tests. "
  ++ "PR reviews frequently mention testing - make it a first-class concern.".

Definition rec_performance : string :=
  "**Performance optimization is a recurring theme.** Profile before optimizing. "
  ++ "Consider React.memo, useMemo, and code splitting for large components.".

Definition rec_organization : string :=
  "**Code organization is frequently discussed.** Follow established file structure patterns. "
  ++ "Keep related files together and maintain consistent directory organization.".

Definition rec_error_handling : string :=
  "**Error handling needs attention.** Implement consistent error handling patterns. "
  ++ "Use try-catch blocks, provide meaningful error messages, and handle edge cases.".

Definition rec_react : string :=
  "**React patterns are dominant.** Use functional components with hooks. "
  ++ "Avoid class components for new code. Follow React best practices for state management.".

(** [findings.get('review_themes', {}).get(theme, 0)] *)
Definition theme_count (f : Dict.t finding) (theme : string) : Z :=
  count (counts_of f "review_themes") theme.

Definition generate_recommendations (r : Refresher) : list string :=
  let ts_mentions := count (metrics r) "tech_typescript" in
  let test_mentions := count (metrics r) "tech_testing" in
  let test_theme := theme_count (findings r) "testing" in
  let perf_theme := theme_count (findings r) "performance" in
  let org_theme := theme_count (findings r) "code_organization" in
  let error_theme := theme_count (findings r) "error_handling" in
  let react_mentions := count (metrics r) "tech_react" in
  ((if 10 <? ts_mentions then [rec_strict_typescript]
    else if 5 <? ts_mentions then [rec_typescript_adoption] else [])
   ++ (if (5 <? test_theme) || (8 <? test_mentions) then [rec_testing] else [])
   ++ (if 3 <? perf_theme then [rec_performance] else [])
   ++ (if 5 <? org_theme then [rec_organization] else [])
   ++ (if 3 <? error_theme then [rec_error_handling] else [])
   ++ (if 10 <? react_mentions then [rec_react] else []))%list.

(** [enumerate(l, start)] rendered one numbered line per item. *)
Fixpoint numbered_lines (i : Z) (l : list string) : string :=
  match l with
  | [] => EmptyString
  | x :: rest => str_of_Z i ++ ". " ++ x ++ nl ++ numbered_lines (i + 1) rest
  end.

Definition recommendations_section (r : Refresher) : string :=
  let recommendations := generate_recommendations r in
  if is_empty recommendations then EmptyString
  else "## Recommendations" ++ nl ++ nl
       ++ "Based on the analysis above:" ++ nl ++ nl
       ++ numbered_lines 1 recommendations ++ nl.

Definition code_examples_section : string :=
  "## Code Examples" ++ nl ++ nl
  ++ "> **Note:** Add specific code examples from recent merged PRs that demonstrate the recommended patterns."
  ++ nl ++ nl.

Definition changes_heading : string :=
  "## Changes from Previous Guidelines" ++ nl ++ nl.

Definition first_version_note : string :=
  "*This is the first version of guidelines for this area.*" ++ nl ++ nl.

Definition trailer : string :=
  "---" ++ nl ++ nl
  ++ "*These guidelines are automatically generated based on actual codebase patterns. "
  ++ "Review and enhance with code examples and project-specific context.*" ++ nl.

(** Everything [generate_updated_guidelines] appends before it looks at the
    previous document. *)
Definition guidelines_body (r : Refresher) (t : datetime) : string :=
  header_section r t
  ++ technology_section r
  ++ file_organization_section r
  ++ naming_section r
  ++ review_focus_section r
  ++ recent_evolution_section r
  ++ recommendations_section r
  ++ code_examples_section.

(** ** [_compare_guidelines] *)

(** [re.findall(r'^## (.+)$', text, re.MULTILINE)] *)
Definition findall_h2 (text : string) : list string :=
  flat_map
    (fun line =>
       if startswith line "## " && (3 <? String.length line)%nat
       then [drop 3 line] else [])
    (splitlines_nl text).

Definition commits_marker : string := "Total commits analyzed:** ".

(** [re.search(r'Total commits analyzed:\*\* (\d+)', text)] with
    [int(match.group(1))]. *)
Fixpoint search_total_commits (text : string) : option Z :=
  match text with
  | EmptyString => None
  | String _ rest =>
      let digits := span_digits (drop (String.length commits_marker) text) in
      if startswith text commits_marker && nonempty digits
      then Some (int_of_digits digits)
      else search_total_commits rest
  end.

Definition bullet_list (l : list string) : string :=
  cat (map (fun section => "- " ++ section ++ nl) (sorted_str l)).

(** The method once the inner [generate_updated_guidelines()] has returned
    [new_guidelines_text]. *)
Definition compare_texts (r : Refresher) (old_guidelines new_guidelines_text : string)
  : string :=
  let old_sections := set_of (findall_h2 old_guidelines) in
  let new_sections := set_of (findall_h2 new_guidelines_text) in
  let added := filter (fun x => negb (mem_str x old_sections)) new_sections in
  let removed := filter (fun x => negb (mem_str x new_sections)) old_sections in
  let common := filter (fun x => mem_str x new_sections) old_sections in
  (if is_empty added then EmptyString
   else "**New sections:**" ++ nl ++ bullet_list added ++ nl)
  ++ (if is_empty removed then EmptyString
      else "**Removed sections:**" ++ nl ++ bullet_list removed ++ nl)
  ++ (if is_empty common then EmptyString
      else "**Updated sections:** " ++ str_of_nat (List.length common)
           ++ " sections refined based on recent activity" ++ nl ++ nl)
  ++ (if is_empty added && is_empty removed
      then "Guidelines structure maintained, content updated based on recent patterns." ++ nl
      else EmptyString)
  ++ match search_total_commits old_guidelines with
     | Some old_commits =>
         nl ++ "**Data freshness:** Analyzed "
         ++ str_of_Z (count (metrics r) "total_commits")
         ++ " recent commits (previous: " ++ str_of_Z old_commits ++ ")" ++ nl
     | None => EmptyString
     end.

(** ** [generate_updated_guidelines]

    The method calls [_compare_guidelines] when a previous document exists,
    and [_compare_guidelines] calls the method again. Each call takes one
    frame of Python's bounded stack: [fuel] is the number of frames left, and
    running out of them is [RecursionError]. [t] is the reading of the clock
    that dates the header; a nested call is given the same reading. *)
Fixpoint generate_updated_guidelines (fuel : nat) (w : World) (t : datetime)
    (r : Refresher) : result string :=
  match fuel with
  | O => Raise RecursionError
  | S frames =>
      let current := load_current_guidelines w r in
      let guidelines := guidelines_body r t in
      match current with
      | Some (String c old) =>
          comparison <-
            match frames with
            | O => Raise RecursionError
            | S frames' =>
                new_guidelines_text <- generate_updated_guidelines frames' w t r ;;
                Ok (compare_texts r (String c old) new_guidelines_text)
            end ;;
          Ok (guidelines ++ changes_heading ++ comparison ++ nl ++ trailer)
      | _ => Ok (guidelines ++ changes_heading ++ first_version_note ++ trailer)
      end
  end.

Definition compare_guidelines (fuel : nat) (w : World) (t : datetime)
    (r : Refresher) (old_guidelines : string) : result string :=
  match fuel with
  | O => Raise RecursionError
  | S frames =>
      new_guidelines_text <- generate_updated_guidelines frames w t r ;;
      Ok (compare_texts r old_guidelines new_guidelines_text)
  end.

(** ** [save_guidelines] *)

Definition save_path (r : Refresher) : Path :=
  joinpath (joinpath (repo_root r) ".claude/guidelines")
           (normalized_filename (area r) ++ ".md").

Definition backup_path (r : Refresher) (t : datetime) : Path :=
  joinpath (joinpath (repo_root r) ".claude/guidelines")
           (normalized_filename (area r) ++ "." ++ strftime_compact t ++ ".md.bak").

Definition exists_file (fs : list (Path * string)) (p : Path) : bool :=
  match read_file fs p with
  | Some _ => true
  | None => false
  end.

(** [config['output_format'].get('backup_previous', True)] *)
Definition wants_backup (c : Config) : bool :=
  match backup_previous c with
  | Some b => b
  | None => true
  end.

Definition save_guidelines (w : World) (r : Refresher) (guidelines : string)
  : Path * World :=
  let output_path := save_path r in
  let w1 :=
    if exists_file (files w) output_path && wants_backup (config r)
    then let '(t, w') := now w in
         with_files w' (rename_file (files w') output_path (backup_path r t))
    else w in
  (output_path, with_files w1 (write_file (files w1) output_path guidelines)).

(** ** [generate_report] *)

Definition get_depth_from_config (r : Refresher) : string :=
  if 0 <? count (metrics r) "total_commits" then "standard" else "unknown".

Definition report_header (r : Refresher) (t : datetime) : string :=
  "# Guideline Refresh Report" ++ nl ++ nl
  ++ "**Area:** `" ++ area r ++ "`" ++ nl
  ++ "**Date:** " ++ strftime_seconds t ++ nl
  ++ "**Analysis Depth:** " ++ get_depth_from_config r ++ nl ++ nl
  ++ "## Executive Summary" ++ nl ++ nl
  ++ "This report documents the analysis performed to refresh coding guidelines for `"
  ++ area r ++ "`." ++ nl ++ nl
  ++ "## Metrics" ++ nl ++ nl.

Definition metric_line (m : Counter) (key : string) : string :=
  match Dict.get m key with
  | Some v =>
      "- **" ++ title (replace "tech " EmptyString (replace "_" " " key))
      ++ ":** " ++ str_of_Z v ++ nl
  | None => EmptyString
  end.

Definition metric_category (m : Counter) (category : string) (keys : list string)
  : string :=
  "### " ++ category ++ nl ++ nl ++ cat (map (metric_line m) keys) ++ nl.

Definition report_metrics (r : Refresher) : string :=
  metric_category (metrics r) "Volume" ["total_commits"; "relevant_prs"; "total_files"]
  ++ metric_category (metrics r) "Technology"
       (filter (fun k => startswith k "tech_") (Dict.keys (metrics r))).

Definition report_findings (r : Refresher) : string :=
  let f := findings r in
  if is_empty f then EmptyString
  else
    "## Key Findings" ++ nl ++ nl
    ++ (if Dict.mem f "review_themes"
        then "### PR Review Themes" ++ nl ++ nl
             ++ "Most frequently mentioned topics in code reviews:" ++ nl ++ nl
             ++ cat (map (fun tc =>
                            "- **" ++ title (replace "_" " " (fst tc)) ++ "**: "
                            ++ str_of_Z (snd tc) ++ " mentions" ++ nl)
                         (sorted_desc snd (counts_of f "review_themes")))
             ++ nl
        else EmptyString)
    ++ (if Dict.mem f "file_types"
        then "### File Type Distribution" ++ nl ++ nl
             ++ cat (map (fun fc =>
                            "- `" ++ fst fc ++ "`: " ++ str_of_Z (snd fc) ++ " files" ++ nl)
                         (firstn 5 (counts_of f "file_types")))
             ++ nl
        else EmptyString)
    ++ (if Dict.mem f "naming_conventions"
        then "### Naming Conventions" ++ nl ++ nl
             ++ cat (map (fun pc =>
                            "- **" ++ fst pc ++ "**: " ++ str_of_Z (snd pc) ++ " files" ++ nl)
                         (sorted_desc snd (counts_of f "naming_conventions")))
             ++ nl
        else EmptyString)
    ++ (if is_empty (refactor_commits f) then EmptyString
        else "### Recent Refactoring Activity" ++ nl ++ nl
             ++ "Found " ++ str_of_nat (List.length (refactor_commits f))
             ++ " refactoring-related commits:" ++ nl ++ nl
             ++ cat (map (fun c => "- " ++ message c ++ nl) (firstn 5 (refactor_commits f)))
             ++ nl).

Definition samples_of (f : Dict.t finding) (key : string) : list string :=
  match Dict.get f key with
  | Some (Samples l) => l
  | _ => []
  end.

Definition feedback_block (f : Dict.t finding) (section : string) : string :=
  let theme := title (replace "_" " " (replace "_feedback" EmptyString section)) in
  let samples := firstn 2 (samples_of f section) in
  if is_empty samples then EmptyString
  else "### " ++ theme ++ nl ++ nl
       ++ cat (map (fun sample => "> " ++ clean_sample 250 sample ++ nl ++ nl) samples).

Definition report_feedback (r : Refresher) : string :=
  let feedback_sections :=
    filter (fun k => endswith k "_feedback") (Dict.keys (findings r)) in
  if is_empty feedback_sections then EmptyString
  else "## Sample Review Feedback" ++ nl ++ nl
       ++ cat (map (feedback_block (findings r)) (firstn 3 feedback_sections)).

Definition report_next_steps : string :=
  "## Next Steps" ++ nl ++ nl
  ++ "1. Review the generated guidelines in `.claude/guidelines/`" ++ nl
  ++ "2. Add specific code examples from recent merged PRs" ++ nl
  ++ "3. Validate recommendations align with project standards" ++ nl
  ++ "4. Share with team for feedback" ++ nl
  ++ "5. Commit updated guidelines to version control" ++ nl ++ nl
  ++ "---" ++ nl ++ nl
  ++ "*Report generated by Guideline Refresher Skill*" ++ nl.

Definition report_text (r : Refresher) (t : datetime) : string :=
  report_header r t ++ report_metrics r ++ report_findings r
  ++ report_feedback r ++ report_next_steps.

Definition report_path_at (r : Refresher) (t : datetime) : Path :=
  joinpath (joinpath (repo_root r) ".claude/reports")
           ("guideline-refresh-" ++ strftime_compact t ++ ".md").

Definition generate_report (w : World) (r : Refresher) : Path * World :=
  let '(t_name, w1) := now w in
  let report_path := report_path_at r t_name in
  let '(t_date, w2) := now w1 in
  (report_path, with_files w2 (write_file (files w2) report_path (report_text r t_date))).

(** ** [run] *)

(** [d[key]] *)
Definition getitem (d : Dict.t Z) (key : string) : result Z :=
  match Dict.get d key with
  | Some v => Ok v
  | None => Raise (KeyError key)
  end.

(** The dictionary [run] returns. *)
Record run_result : Type := mk_result {
  guidelines_path : Path;
  report_path : Path;
  result_metrics : Counter;
  result_findings : Dict.t finding
}.

(** The three analysis phases, in the order [run] calls them. *)
Definition analysis_phases (w : World) (commit_days pr_limit : Z)
    (r : Refresher) : result Refresher :=
  analyze_file_patterns w
    (analyze_pr_reviews w pr_limit (analyze_git_history w commit_days r)).

Definition run (fuel : nat) (depth : string) (w : World) (r : Refresher)
  : result (run_result * Refresher * World) :=
  match Dict.get (analysis_depth (config r)) depth with
  | None => Raise (SystemExit 1)
  | Some preset =>
      commit_days <- getitem preset "commit_days" ;;
      (* the reading that dates the start of the window *)
      let '(_, w0) := now w in
      let r1 := analyze_git_history w0 commit_days r in
      pr_limit <- getitem preset "pr_limit" ;;
      let r2 := analyze_pr_reviews w0 pr_limit r1 in
      r3 <- analyze_file_patterns w0 r2 ;;
      let '(t1, w1) := now w0 in
      guidelines <- generate_updated_guidelines fuel w1 t1 r3 ;;
      let '(gpath, w2) := save_guidelines w1 r3 guidelines in
      let '(rpath, w3) := generate_report w2 r3 in
      Ok (mk_result gpath rpath (metrics r3)
            (filter (fun kv => negb (endswith (fst kv) "_feedback")) (findings r3)),
          r3, w3)
  end.

(** ** Auxiliary notions the properties are stated with *)

(** The character map that [replace] performs for one-character patterns. *)
Definition subst_char (a b c : ascii) : ascii := if Ascii.eqb a c then b else c.

(** The keys a keyword table selects for a text, in table order. *)
Definition matched_keys (table : list (string * list string)) (text : string)
  : list string :=
  map fst (filter (fun tk => any_keyword (snd tk) text) table).

(** How often [k] occurs in a list of keys. *)
Definition occurrences (k : string) (keys : list string) : Z :=
  Z.of_nat (List.length (filter (String.eqb k) keys)).

Definition nonneg_counts (d : Counter) : Prop :=
  Forall (fun kv => 0 <= snd kv) d.

Definition bucket_eqb (a b : bucket) : bool :=
  match a, b with
  | PascalCase, PascalCase | snake_case, snake_case | kebab_case, kebab_case
  | camelCase, camelCase | mixed, mixed => true
  | _, _ => false
  end.

(** The part of the world a second run finds unchanged: history, review
    data and file tree. *)
Definition same_inputs (w w' : World) : Prop :=
  git_log w = git_log w' /\ gh_pr_list w = gh_pr_list w' /\ area_tree w = area_tree w'.

(** The fields the analysis phases never assign. *)
Definition same_identity (r r' : Refresher) : Prop :=
  area r = area r' /\ repo_root r = repo_root r' /\ config r = config r'.

(** ** A concrete repository, used to evaluate the model *)

Definition sample_clock (n : nat) : datetime :=
  mk_datetime 2025 3 14 9 26 (Z.of_nat n).

Definition sample_log : string :=
  "a1b2c3d Refactor widget registry" ++ nl
  ++ "b2c3d4e Migrate buttons to typescript" ++ nl
  ++ "c3d4e5f Fix typo in changelog" ++ nl.

Definition sample_tree : list node :=
  [ File "Button.ts"; File "iconSet.ts"; File "index.ts"; File "README";
    Dir "helpers" [File "date_utils.py"; File "notes.txt"] ].

(** No [gh] on the machine, nothing written under [.claude/] yet. *)
Definition sample_world : World :=
  {| git_log := fun _ => Some sample_log;
     gh_pr_list := fun _ => GhMissing;
     area_tree := Some sample_tree;
     files := [];
     clock := sample_clock;
     ticks := O |}.

Definition sample_refresher : Refresher :=
  new_refresher "lib/widgets" ["/"; "repo"] default_config.

(** The same repository once a guidelines file has been saved for the area. *)
Definition world_with_previous : World :=
  with_files sample_world
    [(["/"; "repo"; ".claude"; "guidelines"; "lib_widgets.md"],
      "# Coding Guidelines: lib/widgets" ++ nl)].

(** A tree whose only code file lies under a hidden directory. *)
Definition hidden_tree : list node :=
  [ Dir ".cache" [File "helper.py"] ].

Definition hidden_world : World :=
  {| git_log := fun _ => Some EmptyString;
     gh_pr_list := fun _ => GhMissing;
     area_tree := Some hidden_tree;
     files := [];
     clock := sample_clock;
     ticks := O |}.

(** The files the first loop of [analyze_file_patterns] counts. *)
Definition visible_file (e : entry) : bool :=
  negb (has_hidden_part (entry_path e)) && entry_is_file e.


(** The sum of the percentages the File Organization section prints. *)
Definition sum_percentages (total : Z) (l : list (string * Z)) : Q :=
  fold_right (fun kv acc => (percentage (snd kv) total + acc)%Q) 0%Q l.

(** What the first loop of the survey maintains on [(file_types, total_files)]. *)
Definition survey_invariant (acc : Counter * Z) : Prop :=
  nonneg_counts (fst acc) /\ NoDup (Dict.keys (fst acc))
  /\ sum_counts (fst acc) <= snd acc.

(** An area whose files have no extension, on a machine without [gh]. *)
Definition bare_world : World :=
  {| git_log := fun _ => Some sample_log;
     gh_pr_list := fun _ => GhMissing;
     area_tree := Some [File "Makefile"; File "LICENSE"];
     files := [];
     clock := sample_clock;
     ticks := O |}.

(** The text a complete run leaves in the guidelines file. *)
Definition guidelines_of_run (depth : string) (w : World) (r : Refresher)
  : option string :=
  match run 1000 depth w r with
  | Ok (out, _, w') => read_file (files w') (guidelines_path out)
  | Raise _ => None
  end.

(** The guidelines document without the review section. *)
Definition guidelines_without_reviews (r : Refresher) (t : datetime) : string :=
  header_section r t
  ++ technology_section r
  ++ file_organization_section r
  ++ naming_section r
  ++ recent_evolution_section r
  ++ recommendations_section r
  ++ code_examples_section
  ++ changes_heading ++ first_version_note ++ trailer.

(** The "Analysis Period" line of the header under the built-in
    configuration. *)
Definition default_period_line : string :=
  "**Analysis Period:** {'quick': {'pr_limit': 20, 'commit_days': 30, 'min_pattern_frequency': 3}, "
  ++ "'standard': {'pr_limit': 50, 'commit_days': 90, 'min_pattern_frequency': 5}, "
  ++ "'deep': {'pr_limit': 100, 'commit_days': 180, 'min_pattern_frequency': 3}} configuration".

(** ** Notions for the properties of the remaining code *)

(** The commit lines [analyze_git_history] iterates over. *)
Definition commit_lines (stdout : string) : list string :=
  filter nonempty (splitlines_nl (strip stdout)).

(** Whether a commit message is recorded as refactoring activity. *)
Definition is_refactor (msg : string) : bool :=
  any_keyword refactor_keywords (lower msg).

(** The reviews of the pull requests that touch the area, in order. *)
Definition relevant_reviews (a : string) (prs : list pull_request) : list review :=
  flat_map pr_reviews (filter (touches_area a) prs).

(** Whether a review counts for a theme with the given patterns. *)
Definition review_matches (pats : list string) (rv : review) : bool :=
  nonempty (review_body rv) && any_keyword pats (lower (review_body rv)).

(** Every list of feedback samples holds at most five samples of at most
    300 characters. *)
Definition capped_feedback (f : Dict.t finding) : Prop :=
  forall k l,
    Dict.get f k = Some (Samples l) ->
    (List.length l <= 5)%nat /\ Forall (fun s => (String.length s <= 300)%nat) l.

(** A repository with two merged pull requests, one of which touches the
    area. *)
Definition review_world : World :=
  {| git_log := fun _ => Some sample_log;
     gh_pr_list := fun _ =>
       GhOk [ mk_pr "Typed buttons" (Some "Adds types")
                [ mk_review "Please add a unit test for the error path";
                  mk_review EmptyString;
                  mk_review "Rename this, the name is too vague" ]
                ["lib/widgets/Button.ts"];
              mk_pr "Docs" None [mk_review "Add tests"] ["docs/readme.md"] ];
     area_tree := Some sample_tree;
     files := [];
     clock := sample_clock;
     ticks := O |}.

(** What the loop over the reviews maintains on the local [review_themes]
    counter. *)
Definition themes_invariant (m : Counter) : Prop :=
  nonneg_counts m /\ NoDup (Dict.keys m)
  /\ incl (Dict.keys m) (map fst theme_patterns).

(** The files the second loop of the survey classifies. *)
Definition named_file (e : entry) : bool :=
  mem_str (suffix (entry_path e)) code_extensions && entry_is_file e
  && negb (is_index_file (stem (entry_path e))).

(** The bucket of a base name ([mixed] stands in where [name[0]] would
    raise, which no stem of a named file does). *)
Definition bucket_of (n : string) : bucket :=
  match naming_bucket n with
  | Ok b => b
  | Raise _ => mixed
  end.

Definition entry_bucket (e : entry) : bucket := bucket_of (stem (entry_path e)).

(** Larger counts first. *)
Definition count_ge (a b : string * Z) : Prop := snd b <= snd a.

(** What the first loop maintains on each entry of [file_types]. *)
Definition counted_suffix (kv : string * Z) : Prop :=
  1 <= snd kv /\ fst kv <> EmptyString.

(** ** [_find_repo_root], [_load_config], [__init__] and [main]

    The host answers two questions at construction: the standard output of
    [git rev-parse --show-toplevel] ([None] when the command fails), and the
    [config.json] beside the script. A loaded configuration is taken with
    its two sections present. *)











(** The sample tree seen from an area under a hidden directory. *)
Definition hidden_area_refresher : Refresher :=
  new_refresher ".github/widgets" ["/"; "repo"] default_config.

(** The keys a run can put in [metrics] and in [findings]. *)
Definition metric_vocabulary : list string :=
  (["total_commits"; "relevant_prs"; "total_files"]
   ++ map (String.append "tech_") (map fst tech_keywords))%list.

Definition finding_vocabulary : list string :=
  (["refactor_commits"; "review_themes"; "file_types"; "naming_conventions"]
   ++ map (fun theme => (theme ++ "_feedback")%string) (map fst theme_patterns))%list.

(** * Properties *)

(** ** Strings *)

Lemma append_assoc (a b c : string) : (a ++ b) ++ c = a ++ (b ++ c).
Proof.
  induction a as [|x a IH]; simpl; [reflexivity | now rewrite IH].
Qed.

Lemma append_empty_r (a : string) : a ++ EmptyString = a.
Proof.
  induction a as [|x a IH]; simpl; [reflexivity | now rewrite IH].
Qed.

Lemma append_cancel_l (p a b : string) : p ++ a = p ++ b -> a = b.
Proof.
  induction p as [|x p IH]; simpl; intros H; [exact H | injection H; auto].
Qed.

Lemma startswith_spec (s p : string) :
  startswith s p = true <-> exists post, s = p ++ post.
Proof.
  revert s; induction p as [|a p IH]; intros s; simpl.
  - split; [intros _; now exists s | reflexivity].
  - destruct s as [|b s].
    + split; [discriminate | intros [post H]; discriminate].
    + rewrite andb_true_iff, Ascii.eqb_eq, IH. split.
      * intros [-> [post ->]]. now exists post.
      * intros [post H]. injection H as -> ->. split; [reflexivity | now exists post].
Qed.

Lemma contains_spec (needle hay : string) :
  contains needle hay = true <-> exists pre post, hay = pre ++ needle ++ post.
Proof.
  induction hay as [|c hay IH]; simpl.
  - rewrite orb_false_r, startswith_spec. split.
    + intros [post H]. now exists EmptyString, post.
    + intros [[|x pre] [post H]]; [now exists post | discriminate].
  - rewrite orb_true_iff, startswith_spec, IH. split.
    + intros [[post H] | [pre [post H]]].
      * now exists EmptyString, post.
      * exists (String c pre), post. simpl. now rewrite H.
    + intros [[|x pre] [post H]].
      * left. now exists post.
      * right. simpl in H. injection H as _ H. now exists pre, post.
Qed.



(** Replacing a one-character pattern by one character is a character map. *)
Lemma replace_char (a b : ascii) (s : string) :
  replace (String a EmptyString) (String b EmptyString) s = map_chars (subst_char a b) s.
Proof.
  unfold replace. induction s as [|c s IH]; [reflexivity|].
  cbn [replace_aux map_chars startswith String.length Nat.sub].
  unfold subst_char at 1. destruct (Ascii.eqb a c); cbn; now rewrite IH.
Qed.

Lemma any_char_map_subst (a b : ascii) (s : string) :
  a <> b -> any_char (Ascii.eqb a) (map_chars (subst_char a b) s) = false.
Proof.
  intros Hab. induction s as [|c s IH]; [reflexivity|]. simpl. rewrite IH, orb_false_r.
  unfold subst_char. destruct (Ascii.eqb a c) eqn:E; [now apply Ascii.eqb_neq | exact E].
Qed.

Lemma any_char_map_other (p : ascii -> bool) (a b : ascii) (s : string) :
  p b = false -> any_char p s = false ->
  any_char p (map_chars (subst_char a b) s) = false.
Proof.
  intros Hb. induction s as [|c s IH]; [reflexivity|]. simpl.
  rewrite !orb_false_iff. intros [Hc Hs]. split; [|now apply IH].
  unfold subst_char. now destruct (Ascii.eqb a c).
Qed.

Lemma any_char_append (p : ascii -> bool) (a b : string) :
  any_char p (a ++ b) = any_char p a || any_char p b.
Proof.
  induction a as [|c a IH]; simpl; [reflexivity | now rewrite IH, orb_assoc].
Qed.

(** Splitting at a separator that does not occur, and at its first occurrence. *)
Lemma split_char_absent (sep : ascii) (s : string) :
  any_char (Ascii.eqb sep) s = false -> split_char sep s = [s].
Proof.
  induction s as [|c s IH]; [reflexivity|]. simpl. rewrite orb_false_iff.
  intros [Hc Hs]. rewrite Ascii.eqb_sym, Hc, (IH Hs). reflexivity.
Qed.

Lemma split_char_first (sep : ascii) (a b : string) :
  any_char (Ascii.eqb sep) a = false ->
  split_char sep (a ++ String sep b) = a :: split_char sep b.
Proof.
  induction a as [|c a IH]; simpl.
  - intros _. now rewrite Ascii.eqb_refl.
  - rewrite orb_false_iff. intros [Hc Ha]. now rewrite Ascii.eqb_sym, Hc, (IH Ha).
Qed.

Lemma split_char_parts (sep : ascii) (s x : string) :
  In x (split_char sep s) -> any_char (Ascii.eqb sep) x = false.
Proof.
  revert x; induction s as [|c s IH]; intros x; simpl.
  - intros [<- | []]. reflexivity.
  - destruct (Ascii.eqb c sep) eqn:E.
    + intros [<- | H]; [reflexivity | now apply IH].
    + destruct (split_char sep s) as [|w ws] eqn:Es.
      * intros [<- | []]. simpl. now rewrite Ascii.eqb_sym, E.
      * intros [<- | H].
        -- simpl. rewrite Ascii.eqb_sym, E. apply IH. now left.
        -- apply IH. now right.
Qed.

(** ** Dictionaries and counters *)

Section DictFacts.
Context {V : Type}.
Implicit Types (d : Dict.t V) (k : string) (v : V).

Lemma get_set_same d k v : Dict.get (Dict.set d k v) k = Some v.
Proof.
  induction d as [|[k' v'] d IH]; simpl.
  - now rewrite String.eqb_refl.
  - destruct (String.eqb k' k) eqn:E; simpl; rewrite E; [reflexivity | exact IH].
Qed.

Lemma get_set_other d k k' v : k <> k' -> Dict.get (Dict.set d k v) k' = Dict.get d k'.
Proof.
  intros Hk. induction d as [|[k0 v0] d IH]; simpl.
  - apply String.eqb_neq in Hk. now rewrite Hk.
  - destruct (String.eqb k0 k) eqn:E; simpl.
    + apply String.eqb_eq in E. subst k0. apply String.eqb_neq in Hk. now rewrite Hk.
    + now rewrite IH.
Qed.

Lemma get_none_not_in d k : Dict.get d k = None <-> ~ In k (Dict.keys d).
Proof.
  induction d as [|[k0 v0] d IH]; simpl.
  - tauto.
  - destruct (String.eqb k0 k) eqn:E.
    + apply String.eqb_eq in E. split; [discriminate | intros H; exfalso; auto].
    + apply String.eqb_neq in E. rewrite IH. tauto.
Qed.

Lemma set_absent d k v : Dict.get d k = None -> Dict.set d k v = (d ++ [(k, v)])%list.
Proof.
  induction d as [|[k0 v0] d IH]; simpl; [reflexivity|].
  destruct (String.eqb k0 k); [discriminate | intros H; now rewrite IH].
Qed.

(** [dict(items)] of items with distinct keys keeps them as they are. *)
Lemma of_items_nodup (items : list (string * V)) :
  NoDup (map fst items) -> Dict.of_items items = items.
Proof.
  unfold Dict.of_items.
  enough (H : forall acc, NoDup (map fst (acc ++ items)%list) ->
            fold_left (fun d kv => Dict.set d (fst kv) (snd kv)) items acc
            = (acc ++ items)%list) by apply (H []).
  induction items as [|[k v] items IH]; intros acc Hnd; simpl.
  - now rewrite app_nil_r.
  - rewrite set_absent.
    + rewrite IH; rewrite <- app_assoc; [reflexivity | exact Hnd].
    + apply get_none_not_in. unfold Dict.keys.
      rewrite map_app in Hnd. simpl in Hnd. apply NoDup_remove_2 in Hnd.
      intros Hin. apply Hnd. apply in_or_app. now left.
Qed.
End DictFacts.

Lemma count_set (m : Counter) (k k' : string) (v : Z) :
  count (Dict.set m k v) k' = if String.eqb k k' then v else count m k'.
Proof.
  unfold count. destruct (String.eqb k k') eqn:E.
  - apply String.eqb_eq in E. subst. now rewrite get_set_same.
  - apply String.eqb_neq in E. now rewrite get_set_other.
Qed.

Lemma count_incr (m : Counter) (k k' : string) :
  count (incr m k) k' = count m k' + (if String.eqb k k' then 1 else 0).
Proof.
  unfold incr. rewrite count_set. destruct (String.eqb k k') eqn:E; [|lia].
  apply String.eqb_eq in E. now subst.
Qed.

Lemma count_fold_incr (keys : list string) (m : Counter) (k : string) :
  count (fold_left incr keys m) k = count m k + occurrences k keys.
Proof.
  unfold occurrences. revert m; induction keys as [|x keys IH]; intros m; simpl.
  - lia.
  - rewrite IH, count_incr, String.eqb_sym.
    destruct (String.eqb k x); cbn [List.length]; lia.
Qed.

Lemma occurrences_nodup (k : string) (keys : list string) :
  NoDup keys -> occurrences k keys = if mem_str k keys then 1 else 0.
Proof.
  unfold occurrences, mem_str. induction 1 as [|x keys Hx Hnd IH]; simpl; [reflexivity|].
  destruct (String.eqb k x) eqn:E; simpl.
  - apply String.eqb_eq in E. subst x.
    replace (filter (String.eqb k) keys) with (@nil string); [reflexivity|].
    symmetry.
    clear IH Hnd. induction keys as [|y keys IHk]; [reflexivity|]. simpl.
    destruct (String.eqb k y) eqn:Ey.
    + apply String.eqb_eq in Ey. subst. exfalso. apply Hx. now left.
    + apply IHk. intros Hin. apply Hx. now right.
  - exact IH.
Qed.

Lemma mem_str_In (x : string) (l : list string) : mem_str x l = true <-> In x l.
Proof.
  unfold mem_str. rewrite existsb_exists. split.
  - intros [y [Hin E]]. apply String.eqb_eq in E. now subst.
  - intros Hin. exists x. split; [exact Hin | apply String.eqb_refl].
Qed.

(** ** Keyword classification *)

Lemma nodup_keys_functional {V : Type} (l : list (string * V)) (k : string) (v v' : V) :
  NoDup (map fst l) -> In (k, v) l -> In (k, v') l -> v = v'.
Proof.
  induction l as [|[k0 v0] l IH]; simpl; [tauto|].
  intros Hnd. inversion Hnd as [|? ? Hk Hnd']; subst.
  intros [E | Hin] [E' | Hin'].
  - congruence.
  - injection E as -> ->. exfalso. apply Hk. now apply (in_map fst) in Hin'.
  - injection E' as -> ->. exfalso. apply Hk. now apply (in_map fst) in Hin.
  - now apply IH.
Qed.

Lemma matched_keys_spec (table : list (string * list string)) (text tech : string)
    (kws : list string) :
  NoDup (map fst table) -> In (tech, kws) table ->
  mem_str tech (matched_keys table text) = any_keyword kws text.
Proof.
  intros Hnd Hin. apply eq_true_iff_eq. rewrite mem_str_In. unfold matched_keys.
  rewrite in_map_iff. split.
  - intros [[k v] [Hk Hf]]. simpl in Hk. subst k. apply filter_In in Hf as [Hf Hany].
    simpl in Hany. now rewrite (nodup_keys_functional table tech kws v Hnd Hin Hf).
  - intros Hany. exists (tech, kws). split; [reflexivity|]. apply filter_In. now split.
Qed.

Lemma matched_keys_nodup (table : list (string * list string)) (text : string) :
  NoDup (map fst table) -> NoDup (matched_keys table text).
Proof.
  unfold matched_keys. induction table as [|[k v] table IH]; simpl; intros Hnd.
  - constructor.
  - inversion Hnd as [|? ? Hk Hnd']; subst.
    destruct (any_keyword v text); simpl; [|now apply IH].
    constructor; [|now apply IH].
    intros Hin. apply Hk. apply in_map_iff in Hin as [tk [E Hf]].
    apply filter_In in Hf as [Hf _]. rewrite <- E. now apply in_map.
Qed.

Lemma track_technologies_fold (text : string) (m : Counter) :
  track_technologies text m
  = fold_left incr (map (String.append "tech_") (matched_keys tech_keywords text)) m.
Proof.
  unfold track_technologies, matched_keys. generalize tech_keywords as table.
  intros table; revert m. induction table as [|[k v] table IH]; intros m; simpl.
  - reflexivity.
  - rewrite IH. now destruct (any_keyword v text).
Qed.

Lemma track_themes_fold (body : string) (acc : Counter * Dict.t finding) :
  fst (track_themes body acc)
  = fold_left incr (matched_keys theme_patterns (lower body)) (fst acc).
Proof.
  unfold track_themes, matched_keys. generalize theme_patterns as table.
  intros table; revert acc. induction table as [|[k v] table IH]; intros acc; simpl.
  - reflexivity.
  - rewrite IH. now destruct (any_keyword v (lower body)).
Qed.


Lemma theme_patterns_nodup : NoDup (map fst theme_patterns).
Proof.
  simpl. repeat (constructor; [simpl; intuition discriminate|]). constructor.
Qed.



Lemma count_track_themes (body : string) (acc : Counter * Dict.t finding)
    (theme : string) (pats : list string) :
  In (theme, pats) theme_patterns ->
  count (fst (track_themes body acc)) theme
  = count (fst acc) theme + (if any_keyword pats (lower body) then 1 else 0).
Proof.
  intros Hin. rewrite track_themes_fold, count_fold_incr. f_equal.
  rewrite occurrences_nodup.
  - now rewrite (matched_keys_spec _ _ _ pats theme_patterns_nodup Hin).
  - apply matched_keys_nodup, theme_patterns_nodup.
Qed.


(** ** Naming conventions *)

Lemma bucket_name_eqb (a b : bucket) :
  String.eqb (bucket_name a) (bucket_name b) = bucket_eqb a b.
Proof.
  destruct a, b; reflexivity.
Qed.

Lemma naming_bucket_total (n : string) :
  n <> EmptyString -> exists b, naming_bucket n = Ok b.
Proof.
  destruct n as [|c0 n]; [congruence|]. intros _. unfold naming_bucket. eauto.
Qed.

(** The second and third rule overlap on a lower-case name that has both
    separators; the order of the chain settles it. *)
Example naming_precedence : naming_bucket "my_file-name" = Ok snake_case.
Proof.
  reflexivity.
Qed.

(** C3. For every base name that is not excluded, the chain of five rules
    yields one bucket and raises the count of that bucket alone by one; the
    names of the specification land in the stated buckets; a base name that
    is "index" or "__init__" once lower-cased is left out of the counts. *)
Theorem C3_naming_buckets :
  (forall n np,
      n <> EmptyString -> is_index_file n = false ->
      exists b,
        naming_bucket n = Ok b
        /\ classify_stem n np = Ok (incr np (bucket_name b))
        /\ forall b', count (incr np (bucket_name b)) (bucket_name b')
                      = count np (bucket_name b') + (if bucket_eqb b b' then 1 else 0))
  /\ (naming_bucket "Button" = Ok PascalCase
      /\ naming_bucket "my_file" = Ok snake_case
      /\ naming_bucket "my-file" = Ok kebab_case
      /\ naming_bucket "myFile" = Ok camelCase
      /\ naming_bucket "My_File" = Ok mixed)
  /\ (forall n np,
         lower n = "index" \/ lower n = "__init__" -> classify_stem n np = Ok np)
  /\ (classify_stem "index" [] = Ok [] /\ classify_stem "__init__" [] = Ok []
      /\ classify_stem "Index" [] = Ok [] /\ classify_stem "INDEX" [] = Ok []).
Proof.
  split.
  { intros n np Hn Hidx. destruct (naming_bucket_total n Hn) as [b Hb].
    exists b. split; [exact Hb|]. split.
    - unfold classify_stem. rewrite Hidx, Hb. reflexivity.
    - intros b'. now rewrite count_incr, bucket_name_eqb. }
  split; [repeat split; reflexivity|].
  split; [|repeat split; reflexivity].
  intros n np H. unfold classify_stem, is_index_file.
  destruct H as [-> | ->]; reflexivity.
Qed.

(** ** Paths *)

Lemma parse_relative (seg : string) :
  startswith seg "/" = false -> is_absolute (parse seg) = false.
Proof.
  intros H. unfold parse. rewrite H.
  destruct (filter _ (split_char "/"%char seg)) as [|x xs] eqn:E; [reflexivity|].
  assert (Hin : In x (x :: xs)) by now left.
  rewrite <- E in Hin. apply filter_In in Hin as [Hin _].
  apply split_char_parts in Hin. cbn [is_absolute].
  destruct x as [|c x]; [reflexivity|].
  cbn [any_char] in Hin. apply orb_false_iff in Hin as [Hc _].
  cbn [String.eqb]. rewrite Ascii.eqb_sym, Hc. reflexivity.
Qed.

Lemma joinpath_relative (p : Path) (seg : string) :
  startswith seg "/" = false -> joinpath p seg = (p ++ parse seg)%list.
Proof.
  intros H. unfold joinpath. now rewrite (parse_relative seg H).
Qed.

Lemma length_append (a b : string) :
  String.length (a ++ b) = (String.length a + String.length b)%nat.
Proof.
  induction a as [|c a IH]; simpl; [reflexivity | now rewrite IH].
Qed.

Lemma parse_component (s : string) :
  any_char (Ascii.eqb "/"%char) s = false -> (2 <= String.length s)%nat ->
  parse s = [s].
Proof.
  intros Hs Hlen. unfold parse. rewrite (split_char_absent _ _ Hs).
  destruct s as [|a [|b s]]; simpl in Hlen; try lia.
  cbn [any_char] in Hs. apply orb_false_iff in Hs as [Ha _].
  cbn [filter startswith]. rewrite Ha. cbn [andb].
  replace (String.eqb (String a (String b s)) ".") with false; [reflexivity|].
  symmetry. apply String.eqb_neq. congruence.
Qed.

Lemma normalized_filename_map (a : string) :
  normalized_filename a
  = map_chars (subst_char "\"%char "_"%char) (map_chars (subst_char "/"%char "_"%char) a).
Proof.
  unfold normalized_filename. change backslash with (String "\"%char EmptyString).
  now rewrite !replace_char.
Qed.

Lemma normalized_filename_no_slash (a : string) :
  any_char (Ascii.eqb "/"%char) (normalized_filename a) = false.
Proof.
  rewrite normalized_filename_map. apply any_char_map_other; [reflexivity|].
  apply any_char_map_subst. discriminate.
Qed.

Lemma md_name_component (fn : string) :
  any_char (Ascii.eqb "/"%char) fn = false -> parse (fn ++ ".md") = [fn ++ ".md"].
Proof.
  intros H. apply parse_component.
  - rewrite any_char_append, H. reflexivity.
  - rewrite length_append. simpl. lia.
Qed.

Lemma save_path_parts (r : Refresher) :
  save_path r
  = (repo_root r ++ [".claude"; "guidelines"; (normalized_filename (area r) ++ ".md")%string])%list.
Proof.
  unfold save_path.
  assert (Hrel : startswith (normalized_filename (area r) ++ ".md") "/" = false).
  { pose proof (normalized_filename_no_slash (area r)) as H.
    destruct (normalized_filename (area r)) as [|c s]; [reflexivity|].
    cbn [any_char] in H. apply orb_false_iff in H as [Hc _].
    cbn [String.append startswith]. now rewrite Hc. }
  rewrite (joinpath_relative _ _ Hrel), (joinpath_relative _ ".claude/guidelines" eq_refl).
  rewrite (md_name_component _ (normalized_filename_no_slash (area r))).
  change (parse ".claude/guidelines") with [".claude"; "guidelines"].
  now rewrite <- app_assoc.
Qed.

Lemma load_path_parts (r : Refresher) :
  load_path r
  = (repo_root r ++ [".claude"; "guidelines"; (normalized_filename (area r) ++ ".md")%string])%list.
Proof.
  unfold load_path.
  rewrite (joinpath_relative _ (".claude/guidelines/" ++ _) eq_refl). f_equal.
  pose proof (normalized_filename_no_slash (area r)) as Hfn.
  set (fn := normalized_filename (area r)) in *.
  assert (Hx : any_char (Ascii.eqb "/"%char) (fn ++ ".md") = false)
    by (rewrite any_char_append, Hfn; reflexivity).
  assert (Hlen : (3 <= String.length (fn ++ ".md"))%nat)
    by (rewrite length_append; simpl; lia).
  unfold parse. change (startswith (".claude/guidelines/" ++ fn ++ ".md") "/") with false.
  change (".claude/guidelines/" ++ fn ++ ".md")
    with (".claude" ++ String "/" ("guidelines" ++ String "/" (fn ++ ".md"))).
  rewrite (split_char_first "/"%char ".claude" _ eq_refl).
  rewrite (split_char_first "/"%char "guidelines" _ eq_refl).
  rewrite (split_char_absent _ _ Hx).
  destruct (fn ++ ".md") as [|a [|b s]]; simpl in Hlen; try lia.
  cbn [filter String.eqb Ascii.eqb Bool.eqb orb negb].
  destruct (Ascii.eqb a "."); reflexivity.
Qed.

Lemma read_write_same (fs : list (Path * string)) (p : Path) (text : string) :
  read_file (write_file fs p text) p = Some text.
Proof.
  assert (Hp : Pathlib.eqb p p = true)
    by (unfold Pathlib.eqb; destruct (list_eq_dec string_dec p p); congruence).
  induction fs as [|[q old] fs IH]; simpl.
  - now rewrite Hp.
  - destruct (Pathlib.eqb q p) eqn:E; simpl; rewrite E; [reflexivity | exact IH].
Qed.

Lemma eqb_path_eq (p q : Path) : Pathlib.eqb p q = true <-> p = q.
Proof.
  unfold Pathlib.eqb. destruct (list_eq_dec string_dec p q); split; congruence.
Qed.

Lemma read_write_other (fs : list (Path * string)) (p q : Path) (text : string) :
  p <> q -> read_file (write_file fs p text) q = read_file fs q.
Proof.
  intros Hpq. assert (Hf : Pathlib.eqb p q = false).
  { destruct (Pathlib.eqb p q) eqn:E; [apply eqb_path_eq in E; contradiction | reflexivity]. }
  induction fs as [|[q0 old] fs IH]; simpl.
  - now rewrite Hf.
  - destruct (Pathlib.eqb q0 p) eqn:E; simpl.
    + apply eqb_path_eq in E. subst q0. now rewrite Hf.
    + now rewrite IH.
Qed.

Lemma load_path_save_path (r : Refresher) : load_path r = save_path r.
Proof.
  now rewrite load_path_parts, save_path_parts.
Qed.


(** ** Generation and the previous document *)

Lemma header_starts (r : Refresher) (t : datetime) :
  exists rest, header_section r t = String "#" rest.
Proof.
  unfold header_section. cbn [String.append]. eexists. reflexivity.
Qed.

Lemma guidelines_body_starts (r : Refresher) (t : datetime) :
  exists rest, guidelines_body r t = String "#" rest.
Proof.
  unfold guidelines_body. destruct (header_starts r t) as [rest ->].
  cbn [String.append]. eexists. reflexivity.
Qed.

(** Without a previous document (or with an empty one) one frame is enough. *)
Lemma generate_first_version (frames : nat) (w : World) (t : datetime) (r : Refresher) :
  load_current_guidelines w r = None \/ load_current_guidelines w r = Some EmptyString ->
  generate_updated_guidelines (S frames) w t r
  = Ok (guidelines_body r t ++ changes_heading ++ first_version_note ++ trailer).
Proof.
  intros [H | H]; cbn [generate_updated_guidelines]; now rewrite H.
Qed.

Lemma generate_nonempty (fuel : nat) (w : World) (t : datetime) (r : Refresher)
    (g : string) :
  generate_updated_guidelines fuel w t r = Ok g -> exists c rest, g = String c rest.
Proof.
  destruct fuel as [|frames]; [discriminate|]. cbn [generate_updated_guidelines].
  destruct (guidelines_body_starts r t) as [rest ->].
  destruct (load_current_guidelines w r) as [[|c old]|].
  - intros H. injection H as <-. cbn [String.append]. eauto.
  - destruct frames as [|frames']; [discriminate|]. cbn [bind].
    destruct (generate_updated_guidelines frames' w t r); [|discriminate].
    cbn [bind]. intros H. injection H as <-. cbn [String.append]. eauto.
  - intros H. injection H as <-. cbn [String.append]. eauto.
Qed.

(** With a non-empty previous document every call needs two more frames than
    the one it makes: no amount of stack is enough. *)
Lemma generate_with_previous (fuel : nat) (w : World) (t : datetime) (r : Refresher)
    (c : ascii) (old : string) :
  load_current_guidelines w r = Some (String c old) ->
  generate_updated_guidelines fuel w t r = Raise RecursionError.
Proof.
  intros H. induction fuel as [fuel IH] using lt_wf_ind.
  destruct fuel as [|[|frames]]; [reflexivity | |];
    cbn [generate_updated_guidelines]; rewrite H; [reflexivity|].
  rewrite (IH frames) by lia. reflexivity.
Qed.

Lemma compare_guidelines_with_previous (fuel : nat) (w : World) (t : datetime)
    (r : Refresher) (c : ascii) (old : string) :
  load_current_guidelines w r = Some (String c old) ->
  compare_guidelines fuel w t r (String c old) = Raise RecursionError.
Proof.
  intros H. destruct fuel as [|frames]; [reflexivity|]. cbn [compare_guidelines].
  now rewrite (generate_with_previous frames w t r c old H).
Qed.

(** C1 (the code departs from the claim). When a non-empty previous document
    exists, [generate_updated_guidelines] calls [_compare_guidelines], which
    calls [generate_updated_guidelines] again on the same state: whatever the
    number of stack frames available, both calls end in [RecursionError] and
    no text is returned. *)
Theorem C1_generate_recursion_error :
  forall (fuel : nat) (w : World) (t : datetime) (r : Refresher) (c : ascii) (old : string),
    load_current_guidelines w r = Some (String c old) ->
    generate_updated_guidelines fuel w t r = Raise RecursionError
    /\ compare_guidelines fuel w t r (String c old) = Raise RecursionError.
Proof.
  intros fuel w t r c old H. split.
  - exact (generate_with_previous fuel w t r c old H).
  - exact (compare_guidelines_with_previous fuel w t r c old H).
Qed.

Lemma C1_recursion_error_witness :
  load_current_guidelines world_with_previous sample_refresher
  = Some ("# Coding Guidelines: lib/widgets" ++ nl)
  /\ generate_updated_guidelines 1000 world_with_previous (sample_clock 1) sample_refresher
     = Raise RecursionError.
Proof.
  split; [reflexivity|].
  exact (proj1 (C1_generate_recursion_error 1000 world_with_previous (sample_clock 1)
                  sample_refresher _ _ eq_refl)).
Defined.

(** ** Two runs in succession *)

Lemma same_identity_refl (r : Refresher) : same_identity r r.
Proof.
  repeat split.
Qed.

Lemma same_identity_trans (a b c : Refresher) :
  same_identity a b -> same_identity b c -> same_identity a c.
Proof.
  unfold same_identity. intuition congruence.
Qed.

Lemma analyze_git_history_identity (w : World) (days : Z) (r : Refresher) :
  same_identity r (analyze_git_history w days r).
Proof.
  unfold analyze_git_history. destruct (git_log w days) as [stdout|]; [|repeat split].
  set (r1 := with_metrics r _). assert (H1 : same_identity r r1) by repeat split.
  revert H1. generalize r1. clear r1.
  induction (filter nonempty (splitlines_nl (strip stdout))) as [|c l IH]; intros r1 H1.
  - exact H1.
  - cbn [fold_left]. apply IH. apply (same_identity_trans _ r1); [exact H1 | repeat split].
Qed.

Lemma analyze_pr_reviews_identity (w : World) (limit : Z) (r : Refresher) :
  same_identity r (analyze_pr_reviews w limit r).
Proof.
  unfold analyze_pr_reviews. destruct (gh_pr_list w limit); try apply same_identity_refl.
  destruct (fold_left _ _ _). repeat split.
Qed.

Lemma analyze_file_patterns_identity (w : World) (r r' : Refresher) :
  analyze_file_patterns w r = Ok r' -> same_identity r r'.
Proof.
  unfold analyze_file_patterns. destruct (area_tree w) as [children|].
  - destruct (fold_left count_entry _ _) as [ft total].
    destruct (fold_result name_entry _ _) as [np|e]; [|discriminate].
    cbn [bind]. intros H. injection H as <-. repeat split.
  - intros H. injection H as <-. apply same_identity_refl.
Qed.

Lemma load_path_identity (r r' : Refresher) :
  same_identity r r' -> load_path r = load_path r'.
Proof.
  intros (Ha & Hr & _). unfold load_path. now rewrite Ha, Hr.
Qed.

Lemma analyses_same_inputs (w w' : World) (days limit : Z) (r : Refresher) :
  same_inputs w w' ->
  analyze_git_history w days r = analyze_git_history w' days r
  /\ analyze_pr_reviews w limit r = analyze_pr_reviews w' limit r
  /\ analyze_file_patterns w r = analyze_file_patterns w' r.
Proof.
  intros (Hg & Hh & Ht).
  unfold analyze_git_history, analyze_pr_reviews, analyze_file_patterns.
  now rewrite Hg, Hh, Ht.
Qed.

Lemma report_path_differs (r : Refresher) (t : datetime) :
  report_path_at r t <> save_path r.
Proof.
  rewrite save_path_parts. unfold report_path_at.
  rewrite (joinpath_relative _ ("guideline-refresh-" ++ _) eq_refl).
  rewrite (joinpath_relative _ ".claude/reports" eq_refl).
  change (parse ".claude/reports") with [".claude"; "reports"].
  rewrite <- app_assoc. intros H. apply app_inv_head in H. discriminate.
Qed.

(** What a successful run leaves behind: the same inputs, and the new
    guidelines, not empty, where the next run will look for them. *)
Lemma run_leaves_guidelines (fuel : nat) (depth : string) (w w' : World)
    (r r' : Refresher) (out : run_result) :
  run fuel depth w r = Ok (out, r', w') ->
  same_inputs w w' /\ same_identity r r'
  /\ exists c rest, load_current_guidelines w' r' = Some (String c rest).
Proof.
  unfold run. destruct (Dict.get _ depth) as [preset|]; [|discriminate].
  destruct (getitem preset "commit_days") as [days|]; [|discriminate]. cbn [bind now].
  destruct (getitem preset "pr_limit") as [limit|]; [|discriminate]. cbn [bind].
  set (w0 := mk_world _ _ _ _ _ _).
  destruct (analyze_file_patterns w0 _) as [r3|] eqn:E3; [|discriminate]. cbn [bind].
  set (w1 := mk_world _ _ _ _ _ _).
  destruct (generate_updated_guidelines fuel w1 _ r3) as [g|] eqn:Eg; [|discriminate].
  cbn [bind]. apply generate_nonempty in Eg as (c & rest & ->).
  unfold generate_report. cbn [now].
  destruct (save_guidelines w1 r3 (String c rest)) as [gpath w2] eqn:Es.
  intros H. injection H as _ <- <-.
  assert (Hid : same_identity r r3).
  { apply analyze_file_patterns_identity in E3.
    eapply same_identity_trans; [apply analyze_git_history_identity|].
    eapply same_identity_trans; [apply analyze_pr_reviews_identity | exact E3]. }
  assert (Hw2 : same_inputs w w2 /\ read_file (files w2) (save_path r3) = Some (String c rest)).
  { unfold save_guidelines in Es. injection Es as _ <-. split.
    - destruct (exists_file _ _ && wants_backup _); repeat split.
    - unfold with_files at 1. cbn [files]. apply read_write_same. }
  destruct Hw2 as [(Hg & Hh & Ht) Hread].
  split; [repeat split; assumption|]. split; [exact Hid|].
  exists c, rest. unfold load_current_guidelines, with_files. cbn [files].
  rewrite load_path_save_path.
  rewrite read_write_other; [exact Hread | apply report_path_differs].
Qed.

Lemma now_same_inputs (w : World) : same_inputs w (snd (now w)).
Proof.
  repeat split.
Qed.

Lemma same_inputs_sym (w w' : World) : same_inputs w w' -> same_inputs w' w.
Proof.
  unfold same_inputs. intuition congruence.
Qed.

Lemma same_inputs_trans (a b c : World) :
  same_inputs a b -> same_inputs b c -> same_inputs a c.
Proof.
  unfold same_inputs. intuition congruence.
Qed.

(** The state a run renders is the one the three analysis phases build. *)
Lemma run_analysis_phases (fuel : nat) (depth : string) (w w' : World)
    (r r' : Refresher) (out : run_result) :
  run fuel depth w r = Ok (out, r', w') ->
  exists commit_days pr_limit,
    analysis_phases w commit_days pr_limit r = Ok r' /\ result_metrics out = metrics r'.
Proof.
  unfold run. destruct (Dict.get _ depth) as [preset|]; [|discriminate].
  destruct (getitem preset "commit_days") as [days|]; [|discriminate]. cbn [bind now].
  destruct (getitem preset "pr_limit") as [limit|]; [|discriminate]. cbn [bind].
  set (w0 := mk_world _ _ _ _ _ _).
  destruct (analyze_file_patterns w0 _) as [r3|] eqn:E3; [|discriminate]. cbn [bind].
  destruct (generate_updated_guidelines fuel _ _ r3) as [g|]; [|discriminate].
  cbn [bind]. destruct (save_guidelines _ r3 g) as [gpath w2].
  destruct (generate_report w2 r3) as [rpath w3]. intros H. injection H as <- <- _.
  exists days, limit. split; [|reflexivity]. unfold analysis_phases.
  destruct (analyses_same_inputs w w0 days limit r (now_same_inputs w)) as (-> & _ & _).
  destruct (analyses_same_inputs w w0 days limit (analyze_git_history w0 days r)
              (now_same_inputs w)) as (_ & -> & _).
  destruct (analyses_same_inputs w w0 days limit
              (analyze_pr_reviews w0 limit (analyze_git_history w0 days r))
              (now_same_inputs w)) as (_ & _ & ->).
  exact E3.
Qed.

(** C2 (the code departs from the claim). After a complete run, a second run
    on the same history, review data and file tree finds the guidelines file
    the first one saved, and [generate_updated_guidelines] ends in
    [RecursionError]: the second run stops before [save_guidelines] and
    [generate_report], so it renames nothing and writes no report. *)
Theorem C2_second_run_recursion_error :
  forall (fuel fuel' : nat) (depth : string) (w w' : World) (r r' : Refresher)
         (out : run_result),
    run fuel depth w r = Ok (out, r', w') ->
    same_inputs w w' /\ run fuel' depth w' r = Raise RecursionError.
Proof.
  intros fuel fuel' depth w w' r r' out H.
  destruct (run_leaves_guidelines _ _ _ _ _ _ _ H) as (Hin & Hid & c & rest & Hload).
  split; [exact Hin|].
  revert H. unfold run. destruct (Dict.get _ depth) as [preset|]; [|discriminate].
  destruct (getitem preset "commit_days") as [days|]; [|discriminate].
  destruct (getitem preset "pr_limit") as [limit|]; [|discriminate].
  cbn [bind]. change (now w) with (fst (now w), snd (now w)).
  change (now w') with (fst (now w'), snd (now w')). cbv iota beta.
  assert (H0 : same_inputs (snd (now w)) (snd (now w'))).
  { eapply same_inputs_trans; [apply same_inputs_sym, now_same_inputs|].
    eapply same_inputs_trans; [exact Hin | apply now_same_inputs]. }
  destruct (analyses_same_inputs _ _ days limit r H0) as (<- & _ & _).
  destruct (analyses_same_inputs _ _ days limit
              (analyze_git_history (snd (now w)) days r) H0) as (_ & <- & _).
  destruct (analyses_same_inputs _ _ days limit
              (analyze_pr_reviews (snd (now w)) limit
                 (analyze_git_history (snd (now w)) days r)) H0) as (_ & _ & <-).
  destruct (analyze_file_patterns _ _) as [r3|] eqn:E3; [|discriminate]. cbn [bind].
  change (now (snd (now w'))) with (fst (now (snd (now w'))), snd (now (snd (now w')))).
  cbv iota beta. intros _.
  rewrite (generate_with_previous fuel' _ _ r3 c rest); [reflexivity|].
  assert (Hid3 : same_identity r r3).
  { apply analyze_file_patterns_identity in E3.
    eapply same_identity_trans; [apply analyze_git_history_identity|].
    eapply same_identity_trans; [apply analyze_pr_reviews_identity | exact E3]. }
  unfold load_current_guidelines in *. cbn [now snd files].
  rewrite <- (load_path_identity r r3 Hid3), (load_path_identity r r' Hid).
  exact Hload.
Qed.

Lemma C2_second_run_witness :
  exists out r' w',
    run 1000 "standard" sample_world sample_refresher = Ok (out, r', w')
    /\ run 1000 "standard" w' sample_refresher = Raise RecursionError.
Proof.
  destruct (run 1000 "standard" sample_world sample_refresher)
    as [[[out r'] w']|e] eqn:E; [|vm_compute in E; discriminate].
  exists out, r', w'. split; [reflexivity|].
  exact (proj2 (C2_second_run_recursion_error 1000 1000 "standard" sample_world w'
                  sample_refresher r' out E)).
Defined.

(** ** The file survey *)

Lemma stem_of_nonempty (n : string) :
  suffix_of n <> EmptyString -> stem_of n <> EmptyString.
Proof.
  unfold suffix_of, stem_of, suffix_index.
  destruct (rfind_dot n) as [i|]; [|congruence].
  destruct ((0 <? i)%nat && (i <? String.length n - 1)%nat) eqn:E; [|congruence].
  intros _. apply andb_true_iff in E as [Hi Hlen].
  apply Nat.ltb_lt in Hi, Hlen.
  destruct i as [|i]; [lia|]. destruct n as [|c n]; [simpl in Hlen; lia|].
  simpl. discriminate.
Qed.

Lemma name_entry_total (np : Counter) (e : entry) : exists np', name_entry np e = Ok np'.
Proof.
  unfold name_entry.
  destruct (mem_str (suffix (entry_path e)) code_extensions && entry_is_file e) eqn:E;
    [|eauto].
  apply andb_true_iff in E as [Hs _]. unfold classify_stem.
  destruct (is_index_file _); [eauto|].
  destruct (naming_bucket_total (stem (entry_path e))) as [b ->]; [|cbn [bind]; eauto].
  apply stem_of_nonempty. intros Hempty. unfold suffix in Hs. rewrite Hempty in Hs.
  discriminate.
Qed.

Lemma fold_name_entry_total (entries : list entry) (np : Counter) :
  exists np', fold_result name_entry entries np = Ok np'.
Proof.
  revert np; induction entries as [|e entries IH]; intros np; cbn [fold_result].
  - eauto.
  - destruct (name_entry_total np e) as [np' ->]. cbn [bind]. apply IH.
Qed.

(** The survey never raises: [name[0]] is only read on the stem of a file
    that has a suffix, and such a stem is not empty. *)
Lemma analyze_file_patterns_total (w : World) (r : Refresher) :
  exists r', analyze_file_patterns w r = Ok r'.
Proof.
  unfold analyze_file_patterns. destruct (area_tree w) as [children|]; [|eauto].
  destruct (fold_left count_entry _ _) as [ft total].
  destruct (fold_name_entry_total (rglob (joinpath (repo_root r) (area r)) children)
              Dict.empty) as [np ->].
  cbn [bind]. eauto.
Qed.

(** The first loop counts exactly the regular files with no hidden part. *)
Lemma count_entries_total (entries : list entry) (ft : Counter) (n : Z) :
  snd (fold_left count_entry entries (ft, n))
  = n + Z.of_nat (List.length (filter visible_file entries)).
Proof.
  revert ft n; induction entries as [|e entries IH]; intros ft n; cbn [fold_left filter].
  - cbn. lia.
  - unfold count_entry at 2, visible_file at 1.
    destruct (has_hidden_part (entry_path e)); cbn [negb andb]; [apply IH|].
    destruct (entry_is_file e); [|apply IH].
    cbn [fst snd]. rewrite IH. cbn [List.length]. lia.
Qed.

(** C6 (the code departs from the claim). The first loop of the survey skips
    every entry with a hidden path component, so no such file is counted in
    [total_files] or [file_types]; the second loop, which fills
    [naming_conventions], walks the same enumeration without that test. A
    code file under a hidden directory is therefore classified: here
    [.cache/helper.py] is the only file, [total_files] is 0, [file_types] is
    empty and [naming_conventions] counts one camelCase file. *)
Theorem C6_hidden_file_is_named :
  exists r',
    analyze_file_patterns hidden_world sample_refresher = Ok r'
    /\ rglob (joinpath (repo_root sample_refresher) (area sample_refresher)) hidden_tree
       = [ mk_entry ["/"; "repo"; "lib"; "widgets"; ".cache"] false;
           mk_entry ["/"; "repo"; "lib"; "widgets"; ".cache"; "helper.py"] true ]
    /\ count (metrics r') "total_files" = 0
    /\ Dict.get (findings r') "file_types" = Some (Counts [])
    /\ Dict.get (findings r') "naming_conventions" = Some (Counts [("camelCase", 1)]).
Proof.
  eexists. repeat split; reflexivity.
Qed.

(** ** Metrics through the analysis phases *)

Lemma occurrences_nonneg (k : string) (keys : list string) : 0 <= occurrences k keys.
Proof.
  unfold occurrences. lia.
Qed.

Lemma occurrences_absent (k : string) (keys : list string) :
  ~ In k keys -> occurrences k keys = 0.
Proof.
  unfold occurrences. intros H.
  replace (filter (String.eqb k) keys) with (@nil string); [reflexivity|].
  symmetry. induction keys as [|x keys IH]; [reflexivity|]. cbn [filter].
  destruct (String.eqb k x) eqn:E.
  - apply String.eqb_eq in E. subst. exfalso. apply H. now left.
  - apply IH. intros Hin. apply H. now right.
Qed.

Lemma metrics_analyze_commits (commits : list string) (r : Refresher) (k : string) :
  count (metrics r) k <= count (metrics (fold_left analyze_commit commits r)) k
  /\ (startswith k "tech_" = false ->
      count (metrics (fold_left analyze_commit commits r)) k = count (metrics r) k).
Proof.
  revert r; induction commits as [|c commits IH]; intros r; cbn [fold_left].
  - split; [lia | reflexivity].
  - destruct (IH (analyze_commit r c)) as [Hle Heq].
    assert (Hstep : count (metrics (analyze_commit r c)) k
                    = count (metrics r) k
                      + occurrences k (map (String.append "tech_")
                                           (matched_keys tech_keywords
                                              (lower (commit_message c))))).
    { unfold analyze_commit. cbn [metrics with_metrics].
      now rewrite track_technologies_fold, count_fold_incr. }
    split.
    + pose proof (occurrences_nonneg k
        (map (String.append "tech_")
             (matched_keys tech_keywords (lower (commit_message c))))). lia.
    + intros Hk. rewrite (Heq Hk), Hstep, occurrences_absent; [lia|].
      intros Hin. apply in_map_iff in Hin as [x [<- _]]. discriminate.
Qed.

Lemma metrics_git_history (w : World) (days : Z) (r : Refresher) (k : string) :
  (k <> "total_commits" ->
   count (metrics r) k <= count (metrics (analyze_git_history w days r)) k)
  /\ (k <> "total_commits" -> startswith k "tech_" = false ->
      count (metrics (analyze_git_history w days r)) k = count (metrics r) k)
  /\ 0 <= count (metrics (analyze_git_history w days r)) "total_commits"
  /\ (git_log w days = None ->
      count (metrics (analyze_git_history w days r)) "total_commits" = 0).
Proof.
  unfold analyze_git_history. destruct (git_log w days) as [stdout|].
  - set (commits := filter nonempty (splitlines_nl (strip stdout))).
    set (r1 := with_metrics r _).
    assert (H1 : forall k', count (metrics r1) k'
                            = if String.eqb "total_commits" k'
                              then Z.of_nat (List.length commits) else count (metrics r) k').
    { intros k'. unfold r1. cbn [metrics with_metrics]. apply count_set. }
    destruct (metrics_analyze_commits commits r1 k) as [Hle Heq].
    destruct (metrics_analyze_commits commits r1 "total_commits") as [Hle' _].
    rewrite H1 in Hle, Heq, Hle'. rewrite String.eqb_refl in Hle'.
    split; [|split; [|split]].
    + intros Hk. apply not_eq_sym, String.eqb_neq in Hk. rewrite Hk in Hle. exact Hle.
    + intros Hk Ht. apply not_eq_sym, String.eqb_neq in Hk. rewrite Hk in Heq. auto.
    + lia.
    + discriminate.
  - cbn [metrics with_metrics]. split; [|split; [|split]].
    + intros Hk. rewrite count_set. apply not_eq_sym, String.eqb_neq in Hk.
      rewrite Hk. lia.
    + intros Hk _. rewrite count_set. apply not_eq_sym, String.eqb_neq in Hk.
      now rewrite Hk.
    + rewrite count_set, String.eqb_refl. lia.
    + intros _. now rewrite count_set, String.eqb_refl.
Qed.

Lemma metrics_pr_reviews (w : World) (limit : Z) (r : Refresher) (k : string) :
  count (metrics (analyze_pr_reviews w limit r)) k
  = match gh_pr_list w limit with
    | GhOk prs =>
        if String.eqb "relevant_prs" k
        then Z.of_nat (List.length (filter (touches_area (area r)) prs))
        else count (metrics r) k
    | _ => count (metrics r) k
    end.
Proof.
  unfold analyze_pr_reviews. destruct (gh_pr_list w limit) as [| | |prs]; try reflexivity.
  destruct (fold_left _ _ _) as [themes f]. cbn [metrics with_metrics]. apply count_set.
Qed.

Lemma metrics_file_patterns (w : World) (r r' : Refresher) (k : string) :
  analyze_file_patterns w r = Ok r' ->
  count (metrics r') k
  = match area_tree w with
    | Some children =>
        if String.eqb "total_files" k
        then Z.of_nat (List.length
                         (filter visible_file
                                 (rglob (joinpath (repo_root r) (area r)) children)))
        else count (metrics r) k
    | None => count (metrics r) k
    end.
Proof.
  unfold analyze_file_patterns. destruct (area_tree w) as [children|].
  - pose proof (count_entries_total (rglob (joinpath (repo_root r) (area r)) children)
                  Dict.empty 0) as Htotal.
    destruct (fold_left count_entry _ _) as [ft total]. cbn [snd] in Htotal.
    destruct (fold_result name_entry _ _) as [np|]; [|discriminate]. cbn [bind].
    intros H. injection H as <-. cbn [metrics with_metrics]. rewrite count_set, Htotal.
    reflexivity.
  - intros H. now injection H as <-.
Qed.

(** C9. In a run, which starts from an empty counter, every metric is a
    non-negative integer after each analysis phase and no phase lowers one:
    for every key, the value after the history phase, after the review phase
    and after the file survey (which always returns) form a non-decreasing
    chain starting at 0; and when the retrieval of the history fails,
    [total_commits] is 0. *)
Theorem C9_metrics_monotone :
  forall (w : World) (commit_days pr_limit : Z) (a : string) (root : Path) (c : Config),
    let r0 := new_refresher a root c in
    let r1 := analyze_git_history w commit_days r0 in
    let r2 := analyze_pr_reviews w pr_limit r1 in
    exists r3,
      analyze_file_patterns w r2 = Ok r3
      /\ (forall k,
             0 <= count (metrics r0) k
             /\ count (metrics r0) k <= count (metrics r1) k
             /\ count (metrics r1) k <= count (metrics r2) k
             /\ count (metrics r2) k <= count (metrics r3) k)
      /\ (git_log w commit_days = None -> count (metrics r1) "total_commits" = 0).
Proof.
  intros w days limit a root c r0 r1 r2.
  destruct (analyze_file_patterns_total w r2) as [r3 H3]. exists r3.
  split; [exact H3|].
  destruct (metrics_git_history w days r0 "total_commits") as (_ & _ & Hc0 & Hfail).
  split; [|exact Hfail]. intros k.
  assert (H0 : count (metrics r0) k = 0) by reflexivity.
  assert (H01 : count (metrics r0) k <= count (metrics r1) k).
  { destruct (String.eqb k "total_commits") eqn:E.
    - apply String.eqb_eq in E. subst k. fold r1 in Hc0. lia.
    - apply String.eqb_neq in E. now apply metrics_git_history. }
  assert (Hother : forall k', k' <> "total_commits" -> startswith k' "tech_" = false ->
                              count (metrics r1) k' = 0).
  { intros k' Hk Ht. unfold r1.
    destruct (metrics_git_history w days r0 k') as (_ & Heq & _). now rewrite Heq. }
  assert (H12 : count (metrics r1) k <= count (metrics r2) k).
  { unfold r2. rewrite metrics_pr_reviews. destruct (gh_pr_list w limit); try lia.
    destruct (String.eqb "relevant_prs" k) eqn:E; [|lia].
    apply String.eqb_eq in E. subst k. rewrite Hother; [lia | discriminate | reflexivity]. }
  assert (H23 : count (metrics r2) k <= count (metrics r3) k).
  { rewrite (metrics_file_patterns w r2 r3 k H3). destruct (area_tree w); [|lia].
    destruct (String.eqb "total_files" k) eqn:E; [|lia].
    apply String.eqb_eq in E. subst k. unfold r2. rewrite metrics_pr_reviews.
    replace (count (metrics r1) "total_files") with 0
      by (symmetry; apply Hother; [discriminate | reflexivity]).
    destruct (gh_pr_list w limit); cbn; lia. }
  lia.
Qed.

(** ** File types and their percentages *)

Lemma count_nonneg (m : Counter) (k : string) : nonneg_counts m -> 0 <= count m k.
Proof.
  unfold count, nonneg_counts. induction 1 as [|[k' v'] m Hv Hm IH]; simpl; [lia|].
  destruct (String.eqb k' k); [exact Hv | exact IH].
Qed.

Lemma set_keys {V : Type} (d : Dict.t V) (k : string) (v : V) :
  Dict.keys (Dict.set d k v)
  = if Dict.mem d k then Dict.keys d else (Dict.keys d ++ [k])%list.
Proof.
  unfold Dict.mem, Dict.keys. induction d as [|[k' v'] d IH]; simpl; [reflexivity|].
  destruct (String.eqb k' k) eqn:E; simpl; [reflexivity|].
  rewrite IH. now destruct (Dict.get d k).
Qed.

Lemma set_forall {V : Type} (P : string * V -> Prop) (d : Dict.t V) (k : string) (v : V) :
  Forall P d -> P (k, v) -> Forall P (Dict.set d k v).
Proof.
  intros Hd Hk. induction Hd as [|[k' v'] d Hv Hd IH]; simpl.
  - constructor; [exact Hk | constructor].
  - destruct (String.eqb k' k) eqn:E.
    + apply String.eqb_eq in E. subst k'. now constructor.
    + now constructor.
Qed.

Lemma sum_counts_set (m : Counter) (k : string) (v : Z) :
  sum_counts (Dict.set m k v) = sum_counts m - count m k + v.
Proof.
  unfold count. induction m as [|[k' v'] m IH]; simpl; [lia|].
  destruct (String.eqb k' k); simpl; [lia | rewrite IH; lia].
Qed.

Lemma mem_keys {V : Type} (d : Dict.t V) (k : string) :
  Dict.mem d k = false -> ~ In k (Dict.keys d).
Proof.
  unfold Dict.mem. intros H. apply get_none_not_in. now destruct (Dict.get d k).
Qed.

Lemma incr_invariant (m : Counter) (k : string) :
  nonneg_counts m -> NoDup (Dict.keys m) ->
  nonneg_counts (incr m k) /\ NoDup (Dict.keys (incr m k))
  /\ sum_counts (incr m k) = sum_counts m + 1.
Proof.
  intros Hnn Hnd. pose proof (count_nonneg m k Hnn) as Hk. unfold incr.
  split; [|split].
  - apply set_forall; [exact Hnn | simpl; lia].
  - rewrite set_keys. destruct (Dict.mem m k) eqn:E; [exact Hnd|].
    apply NoDup_app; [exact Hnd | constructor; [intros [] | constructor] |].
    intros x Hx [Hxk | []]. subst x. exact (mem_keys m k E Hx).
  - rewrite sum_counts_set. lia.
Qed.

Lemma count_entry_invariant (acc : Counter * Z) (e : entry) :
  survey_invariant acc -> survey_invariant (count_entry acc e).
Proof.
  unfold survey_invariant, count_entry. intros (Hnn & Hnd & Hsum).
  destruct (has_hidden_part _); [tauto|]. destruct (entry_is_file e); [|tauto].
  destruct (nonempty _); cbn [fst snd].
  - destruct (incr_invariant (fst acc) (suffix (entry_path e)) Hnn Hnd) as (? & ? & ->).
    repeat split; try assumption. lia.
  - repeat split; try assumption. lia.
Qed.

Lemma count_entries_invariant (entries : list entry) (acc : Counter * Z) :
  survey_invariant acc -> survey_invariant (fold_left count_entry entries acc).
Proof.
  revert acc; induction entries as [|e entries IH]; intros acc H; cbn [fold_left].
  - exact H.
  - apply IH, count_entry_invariant, H.
Qed.

Lemma insert_desc_perm {A : Type} (key : A -> Z) (x : A) (l : list A) :
  Permutation (insert_desc key x l) (x :: l).
Proof.
  induction l as [|y l IH]; simpl; [reflexivity|].
  destruct (key y <=? key x); [reflexivity|].
  rewrite IH. apply perm_swap.
Qed.

Lemma sorted_desc_perm {A : Type} (key : A -> Z) (l : list A) :
  Permutation (sorted_desc key l) l.
Proof.
  unfold sorted_desc. induction l as [|x l IH]; simpl; [reflexivity|].
  rewrite insert_desc_perm. now constructor.
Qed.

Lemma sum_counts_perm (l l' : list (string * Z)) :
  Permutation l l' -> sum_counts l = sum_counts l'.
Proof.
  induction 1; simpl; lia.
Qed.

Lemma sum_counts_firstn (n : nat) (l : list (string * Z)) :
  nonneg_counts l -> 0 <= sum_counts (firstn n l) <= sum_counts l.
Proof.
  intros H. revert n. induction H as [|[k v] l Hv Hl IH]; intros n.
  - rewrite firstn_nil. simpl. lia.
  - destruct n as [|n]; simpl in *.
    + specialize (IH O). simpl in IH. lia.
    + specialize (IH n). lia.
Qed.

Lemma nonneg_firstn (n : nat) (l : list (string * Z)) :
  nonneg_counts l -> nonneg_counts (firstn n l).
Proof.
  intros H. revert n. induction H as [|kv l Hv Hl IH]; intros n.
  - rewrite firstn_nil. constructor.
  - destruct n; simpl; [constructor|]. constructor; [exact Hv | apply IH].
Qed.

Lemma nodup_firstn {A : Type} (n : nat) (l : list A) : NoDup l -> NoDup (firstn n l).
Proof.
  intros H. revert n. induction H as [|x l Hx Hl IH]; intros n.
  - rewrite firstn_nil. constructor.
  - destruct n; simpl; constructor; [|apply IH].
    intros Hin. apply Hx. revert Hin. clear. revert n.
    induction l as [|y l IHl]; intros n; destruct n; simpl; try tauto.
    intros [-> | H]; [now left | right; eauto].
Qed.

(** The [file_types] finding, from the counter the first loop built. *)
Lemma most_common_file_types (ft : Counter) (total : Z) :
  survey_invariant (ft, total) ->
  let top := Dict.of_items (most_common 10 ft) in
  top = firstn 10 (sorted_desc snd ft)
  /\ nonneg_counts top /\ sum_counts top <= total.
Proof.
  intros (Hnn & Hnd & Hsum). cbn [fst snd] in *. cbv zeta.
  pose proof (sorted_desc_perm snd ft) as Hperm.
  assert (Hnn' : nonneg_counts (sorted_desc snd ft)).
  { unfold nonneg_counts. now rewrite Hperm. }
  assert (Heq : Dict.of_items (most_common 10 ft) = firstn 10 (sorted_desc snd ft)).
  { apply of_items_nodup. unfold most_common. rewrite <- firstn_map.
    apply nodup_firstn. unfold Dict.keys in Hnd. now rewrite Hperm. }
  rewrite Heq. split; [reflexivity|]. split; [now apply nonneg_firstn|].
  pose proof (sum_counts_firstn 10 _ Hnn'). rewrite (sum_counts_perm _ _ Hperm) in *. lia.
Qed.




(** ** Findings through the analysis phases *)

Lemma findings_analyze_commits (commits : list string) (r : Refresher) (k : string) :
  k <> "refactor_commits" ->
  Dict.get (findings (fold_left analyze_commit commits r)) k = Dict.get (findings r) k.
Proof.
  intros Hk. revert r; induction commits as [|c commits IH]; intros r; cbn [fold_left].
  - reflexivity.
  - rewrite IH. unfold analyze_commit. cbn [findings with_findings with_metrics].
    destruct (any_keyword refactor_keywords _); [|reflexivity].
    unfold append_record.
    destruct (Dict.get (findings r) "refactor_commits") as [[l|d|l]|];
      now rewrite get_set_other by (apply not_eq_sym; exact Hk).
Qed.

Lemma findings_git_history (w : World) (days : Z) (r : Refresher) (k : string) :
  k <> "refactor_commits" ->
  Dict.get (findings (analyze_git_history w days r)) k = Dict.get (findings r) k.
Proof.
  intros Hk. unfold analyze_git_history. destruct (git_log w days); [|reflexivity].
  now rewrite findings_analyze_commits.
Qed.


Lemma store_sample_other (f : Dict.t finding) (key sample k : string) :
  k <> key -> Dict.get (store_sample f key sample) k = Dict.get f k.
Proof.
  intros Hk. unfold store_sample.
  destruct (Dict.get f key) as [[l|d|l]|];
    try (now rewrite get_set_other by (apply not_eq_sym; exact Hk)).
  destruct (List.length l <? 5)%nat; [|reflexivity].
  now rewrite get_set_other by (apply not_eq_sym; exact Hk).
Qed.




Lemma findings_file_patterns (w : World) (r r' : Refresher) :
  analyze_file_patterns w r = Ok r' ->
  match area_tree w with
  | Some children =>
      let acc := fold_left count_entry
                   (rglob (joinpath (repo_root r) (area r)) children) (Dict.empty, 0) in
      Dict.get (findings r') "file_types"
      = Some (Counts (Dict.of_items (most_common 10 (fst acc))))
      /\ count (metrics r') "total_files" = snd acc
  | None => r' = r
  end
  /\ forall k, k <> "file_types" -> k <> "naming_conventions" ->
               Dict.get (findings r') k = Dict.get (findings r) k.
Proof.
  unfold analyze_file_patterns. destruct (area_tree w) as [children|].
  - destruct (fold_left count_entry _ _) as [ft total].
    destruct (fold_result name_entry _ _) as [np|]; [|discriminate]. cbn [bind].
    intros H. injection H as <-. cbn [findings metrics with_findings with_metrics fst snd].
    split; [split|].
    + destruct (is_empty np).
      * apply get_set_same.
      * rewrite get_set_other by discriminate. apply get_set_same.
    + now rewrite count_set.
    + intros k Hk Hk'. destruct (is_empty np).
      * now rewrite get_set_other by (apply not_eq_sym; exact Hk).
      * rewrite get_set_other by (apply not_eq_sym; exact Hk').
        now rewrite get_set_other by (apply not_eq_sym; exact Hk).
  - intros H. injection H as <-. split; [reflexivity | reflexivity].
Qed.




(** The bound is on the percentages themselves. Each printed value is
    rounded to one decimal on its own: for counts 2, 2, 1, 1, 1 out of 7
    files the lines read 28.6, 28.6, 14.3, 14.3 and 14.3. *)
Example printed_percentages_are_rounded :
  map (fun n => format_1f (percentage n 7)) [2; 2; 1; 1; 1]
  = ["28.6"; "28.6"; "14.3"; "14.3"; "14.3"]
  /\ Qeq (sum_percentages 7 [(".ts", 2); (".js", 2); (".py", 1); (".go", 1); (".rs", 1)])
         100%Q.
Proof.
  split; reflexivity.
Qed.

(** ** The run without the review-hosting tool *)

Lemma header_has_summary (r : Refresher) (t : datetime) :
  exists pre post, header_section r t = pre ++ "## Analysis Summary" ++ post.
Proof.
  exists ("# Coding Guidelines: " ++ area r ++ nl ++ nl
          ++ "**Last Updated:** " ++ strftime_minutes t ++ nl
          ++ "**Auto-generated by:** Guideline Refresher Skill" ++ nl
          ++ "**Analysis Period:** " ++ repr_analysis_depth (analysis_depth (config r))
          ++ " configuration" ++ nl ++ nl).
  eexists. unfold header_section. rewrite !append_assoc. reflexivity.
Qed.

Lemma fresh_review_themes (w : World) (days limit : Z) (r r3 : Refresher) :
  findings r = Dict.empty -> gh_pr_list w limit = GhMissing ->
  analysis_phases w days limit r = Ok r3 ->
  Dict.get (findings r3) "review_themes" = None.
Proof.
  intros Hf Hgh H3. unfold analysis_phases in H3.
  destruct (findings_file_patterns w _ r3 H3) as [_ Hk].
  rewrite Hk by discriminate. unfold analyze_pr_reviews. rewrite Hgh.
  rewrite findings_git_history by discriminate. now rewrite Hf.
Qed.

(** The claim as the specification states it fails on an area whose files
    have no extension: the run succeeds without [gh], and the document has
    the Analysis Summary but no File Organization section. *)
Lemma C5_no_file_organization :
  gh_pr_list bare_world 50 = GhMissing
  /\ exists text,
       guidelines_of_run "standard" bare_world sample_refresher = Some text
       /\ contains "Analysis Summary" text = true
       /\ contains "Code Review Focus Areas" text = false
       /\ contains "File Organization" text = false.
Proof.
  split; [reflexivity|]. eexists. split; [vm_compute; reflexivity|].
  repeat split; vm_compute; reflexivity.
Qed.

(** C5, amended. When [gh] is not available the review phase returns the
    state it was given, and the analysis goes on to the file survey and
    returns. The document of a first run is then the concatenation of the
    other sections, with no Code Review Focus Areas section; it has the
    Analysis Summary; and it has the File Organization section exactly when
    the survey recorded at least one file extension. *)
Theorem C5_degraded_review_phase :
  forall (w : World) (commit_days pr_limit : Z) (a : string) (root : Path) (c : Config),
    gh_pr_list w pr_limit = GhMissing ->
    (forall r, analyze_pr_reviews w pr_limit r = r)
    /\ exists r3,
         analysis_phases w commit_days pr_limit (new_refresher a root c) = Ok r3
         /\ review_focus_section r3 = EmptyString
         /\ (forall frames t,
                load_current_guidelines w r3 = None ->
                generate_updated_guidelines (S frames) w t r3
                = Ok (guidelines_without_reviews r3 t))
         /\ (forall t, exists pre post,
                guidelines_without_reviews r3 t = pre ++ "## Analysis Summary" ++ post)
         /\ (listed_file_types r3 <> [] ->
             exists rest, file_organization_section r3 = "## File Organization" ++ rest)
         /\ (listed_file_types r3 = [] -> file_organization_section r3 = EmptyString).
Proof.
  intros w days limit a root c Hgh.
  split; [intros r; unfold analyze_pr_reviews; now rewrite Hgh|].
  destruct (analyze_file_patterns_total w
              (analyze_pr_reviews w limit
                 (analyze_git_history w days (new_refresher a root c)))) as [r3 H3].
  exists r3. split; [exact H3|].
  assert (Hrev : review_focus_section r3 = EmptyString).
  { unfold review_focus_section, counts_of.
    now rewrite (fresh_review_themes w days limit (new_refresher a root c) r3
                   eq_refl Hgh H3). }
  split; [exact Hrev|]. split; [|split; [|split]].
  - intros frames t Hload. rewrite generate_first_version by now left.
    unfold guidelines_body, guidelines_without_reviews. rewrite Hrev.
    cbn [String.append]. now rewrite !append_assoc.
  - intros t. destruct (header_has_summary r3 t) as (pre & post & Hh).
    exists pre. eexists. unfold guidelines_without_reviews. rewrite Hh.
    rewrite !append_assoc. reflexivity.
  - unfold file_organization_section, listed_file_types.
    destruct (counts_of (findings r3) "file_types") as [|x l];
      [cbn [firstn]; congruence|].
    intros _. cbn [is_empty]. eexists. reflexivity.
  - unfold file_organization_section, listed_file_types.
    destruct (counts_of (findings r3) "file_types") as [|x l]; [reflexivity|].
    cbn [firstn]. discriminate.
Qed.

Lemma C5_degraded_review_witness :
  gh_pr_list sample_world 50 = GhMissing
  /\ exists r3,
       analysis_phases sample_world 90 50 sample_refresher = Ok r3
       /\ review_focus_section r3 = EmptyString
       /\ generate_updated_guidelines 1 sample_world (sample_clock 1) r3
          = Ok (guidelines_without_reviews r3 (sample_clock 1)).
Proof.
  split; [reflexivity|].
  destruct (C5_degraded_review_phase sample_world 90 50 "lib/widgets" ["/"; "repo"]
              default_config eq_refl) as (_ & r3 & H3 & Hrev & Hgen & _).
  exists r3. split; [exact H3|]. split; [exact Hrev|].
  apply Hgen. unfold load_current_guidelines. reflexivity.
Defined.

(** ** The header and the depth preset *)

(** The header is built from the area, the clock, the whole [analysis_depth]
    table and three metrics: the depth passed to [run] is not among them. *)
Lemma header_period_line (r : Refresher) (t : datetime) :
  exists pre post,
    header_section r t
    = pre ++ "**Analysis Period:** " ++ repr_analysis_depth (analysis_depth (config r))
          ++ " configuration" ++ post.
Proof.
  exists ("# Coding Guidelines: " ++ area r ++ nl ++ nl
          ++ "**Last Updated:** " ++ strftime_minutes t ++ nl
          ++ "**Auto-generated by:** Guideline Refresher Skill" ++ nl).
  eexists. unfold header_section. rewrite !append_assoc. reflexivity.
Qed.

(** C10 (the code departs from the claim). The header interpolates the whole
    [analysis_depth] table of the configuration, not the label of the preset
    in use. On the sample repository, whose history is the same over every
    window, the runs with depth quick, standard and deep write the same
    guidelines text, whose "Analysis Period" line lists the three presets. *)
Theorem C10_header_ignores_depth :
  exists text,
    guidelines_of_run "quick" sample_world sample_refresher = Some text
    /\ guidelines_of_run "standard" sample_world sample_refresher = Some text
    /\ guidelines_of_run "deep" sample_world sample_refresher = Some text
    /\ firstn 6 (splitlines_nl text)
       = [ "# Coding Guidelines: lib/widgets";
           EmptyString;
           "**Last Updated:** 2025-03-14 09:26";
           "**Auto-generated by:** Guideline Refresher Skill";
           default_period_line;
           EmptyString ].
Proof.
  eexists. split; [vm_compute; reflexivity|].
  repeat split; vm_compute; reflexivity.
Qed.

(** * Further properties of the code *)

(** ** The history phase *)

Lemma after_first_space_append (h m : string) :
  contains " " h = false -> after_first_space (h ++ " " ++ m) = m.
Proof.
  induction h as [|c h IH]; [reflexivity|].
  cbn [contains startswith]. rewrite andb_true_r, orb_false_iff. intros [Hc Hh].
  cbn [String.append after_first_space]. rewrite Ascii.eqb_sym, Hc. now apply IH.
Qed.

(** X1. A log line is split at its first space: for a revision identifier
    without a space, the message of "<id> <message>" is the message, further
    spaces included; a line without any space is taken whole as the
    message. *)
Theorem commit_message_split :
  forall (h m line : string),
    contains " " h = false ->
    contains " " line = false ->
    commit_message (h ++ " " ++ m) = m /\ commit_message line = line.
Proof.
  intros h m line Hh Hline. unfold commit_message. split.
  - replace (contains " " (h ++ " " ++ m)) with true.
    + now apply after_first_space_append.
    + symmetry. apply contains_spec. now exists h, m.
  - now rewrite Hline.
Qed.

Lemma commit_message_split_witness :
  commit_message ("a1b2c3d" ++ " " ++ "Fix typo in changelog") = "Fix typo in changelog"
  /\ commit_message "a1b2c3d" = "a1b2c3d".
Proof.
  exact (commit_message_split "a1b2c3d" "Fix typo in changelog" "a1b2c3d" eq_refl eq_refl).
Defined.

Lemma refactor_commits_append (f : Dict.t finding) (c : commit_record) :
  refactor_commits (append_record f "refactor_commits" c)
  = (refactor_commits f ++ [c])%list.
Proof.
  unfold refactor_commits, append_record.
  destruct (Dict.get f "refactor_commits") as [[l|d|l]|]; now rewrite get_set_same.
Qed.

Lemma refactor_commits_fold (commits : list string) (r : Refresher) :
  refactor_commits (findings (fold_left analyze_commit commits r))
  = (refactor_commits (findings r)
     ++ map (fun m => mk_commit m "refactor")
            (filter is_refactor (map commit_message commits)))%list.
Proof.
  revert r; induction commits as [|c commits IH]; intros r; cbn [fold_left map filter].
  - now rewrite app_nil_r.
  - rewrite IH. unfold analyze_commit. cbn [findings with_findings with_metrics].
    destruct (is_refactor (commit_message c)) eqn:E; unfold is_refactor in E; rewrite E.
    + rewrite refactor_commits_append, <- app_assoc. reflexivity.
    + reflexivity.
Qed.

(** X2. When [git log] answers, [total_commits] becomes the number of
    non-empty lines of its trimmed output, and the [refactor_commits] finding
    is extended, in log order, by exactly the messages that contain one of
    the five refactoring keywords once lower-cased. *)
Theorem git_history_records :
  forall (w : World) (days : Z) (r : Refresher) (stdout : string),
    git_log w days = Some stdout ->
    let r1 := analyze_git_history w days r in
    count (metrics r1) "total_commits" = Z.of_nat (List.length (commit_lines stdout))
    /\ refactor_commits (findings r1)
       = (refactor_commits (findings r)
          ++ map (fun m => mk_commit m "refactor")
                 (filter is_refactor (map commit_message (commit_lines stdout))))%list.
Proof.
  intros w days r stdout Hlog r1. unfold r1, analyze_git_history. rewrite Hlog.
  fold (commit_lines stdout). split.
  - destruct (metrics_analyze_commits (commit_lines stdout)
                (with_metrics r (Dict.set (metrics r) "total_commits"
                                   (Z.of_nat (List.length (commit_lines stdout)))))
                "total_commits") as [_ ->]; [|reflexivity].
    cbn [metrics with_metrics]. now rewrite count_set, String.eqb_refl.
  - now rewrite refactor_commits_fold.
Qed.

Lemma git_history_records_witness :
  count (metrics (analyze_git_history sample_world 90 sample_refresher)) "total_commits"
  = 3
  /\ refactor_commits (findings (analyze_git_history sample_world 90 sample_refresher))
     = [ mk_commit "Refactor widget registry" "refactor";
         mk_commit "Migrate buttons to typescript" "refactor" ].
Proof.
  exact (git_history_records sample_world 90 sample_refresher sample_log eq_refl).
Defined.

(** ** The review phase *)

Lemma length_take (n : nat) (s : string) : (String.length (take n s) <= n)%nat.
Proof.
  revert s; induction n as [|n IH]; intros [|c s]; simpl; try lia.
  specialize (IH s). lia.
Qed.

Lemma store_sample_capped (f : Dict.t finding) (key sample : string) :
  capped_feedback f -> (String.length sample <= 300)%nat ->
  capped_feedback (store_sample f key sample).
Proof.
  intros Hf Hs k l. destruct (String.eqb_spec k key) as [-> | Hk].
  - unfold store_sample. destruct (Dict.get f key) as [[l0|d|l0]|] eqn:E;
      try (rewrite get_set_same; intros H; injection H as <-;
           split; [cbn [List.length]; lia | constructor; [exact Hs | constructor]]).
    destruct (Nat.ltb_spec (List.length l0) 5) as [Hlt | Hge].
    + rewrite get_set_same. intros H. injection H as <-.
      destruct (Hf key l0 E) as [_ Hall]. split.
      * rewrite length_app. simpl. lia.
      * apply Forall_app. split; [exact Hall | constructor; [exact Hs | constructor]].
    + rewrite E. intros H. injection H as <-. exact (Hf key l0 E).
  - rewrite store_sample_other by exact Hk. apply Hf.
Qed.

Lemma track_themes_capped (body : string) (acc : Counter * Dict.t finding) :
  capped_feedback (snd acc) -> capped_feedback (snd (track_themes body acc)).
Proof.
  unfold track_themes. generalize theme_patterns as table.
  intros table; revert acc. induction table as [|[theme pats] table IH]; intros acc H.
  - exact H.
  - cbn [fold_left fst snd]. apply IH.
    destruct (any_keyword pats (lower body)); [|exact H]. cbn [snd].
    apply store_sample_capped; [exact H | apply length_take].
Qed.

Lemma fold_reviews_flat (prs : list pull_request) (acc : Counter * Dict.t finding) :
  fold_left (fun acc pr => fold_left analyze_review (pr_reviews pr) acc) prs acc
  = fold_left analyze_review (flat_map pr_reviews prs) acc.
Proof.
  revert acc; induction prs as [|pr prs IH]; intros acc; cbn [fold_left flat_map].
  - reflexivity.
  - now rewrite fold_left_app, IH.
Qed.

Lemma reviews_capped (reviews : list review) (acc : Counter * Dict.t finding) :
  capped_feedback (snd acc) ->
  capped_feedback (snd (fold_left analyze_review reviews acc)).
Proof.
  revert acc; induction reviews as [|rv reviews IH]; intros acc H; cbn [fold_left].
  - exact H.
  - apply IH. unfold analyze_review. destruct (nonempty _); [|exact H].
    now apply track_themes_capped.
Qed.

(** X3. The review phase keeps the feedback samples bounded: if every list
    of samples holds at most five samples of at most 300 characters before
    the phase, the same is true after it, whatever [gh] answers. *)
Theorem feedback_samples_capped :
  forall (w : World) (pr_limit : Z) (r : Refresher),
    capped_feedback (findings r) ->
    capped_feedback (findings (analyze_pr_reviews w pr_limit r)).
Proof.
  intros w limit r H. unfold analyze_pr_reviews.
  destruct (gh_pr_list w limit) as [| | |prs]; try exact H.
  rewrite fold_reviews_flat.
  pose proof (reviews_capped (flat_map pr_reviews (filter (touches_area (area r)) prs))
                (Dict.empty, findings r) H) as Hc.
  destruct (fold_left analyze_review _ _) as [themes f].
  cbn [findings with_findings with_metrics snd] in *. intros k l.
  destruct (String.eqb_spec k "review_themes") as [-> | Hk].
  - rewrite get_set_same. discriminate.
  - rewrite get_set_other by (apply not_eq_sym; exact Hk). apply Hc.
Qed.

Lemma feedback_samples_capped_witness :
  capped_feedback (findings (analyze_pr_reviews review_world 50 sample_refresher))
  /\ Dict.get (findings (analyze_pr_reviews review_world 50 sample_refresher))
              "testing_feedback"
     = Some (Samples ["Please add a unit test for the error path"]).
Proof.
  split; [|reflexivity].
  apply (feedback_samples_capped review_world 50 sample_refresher).
  intros k l H. discriminate H.
Defined.

Lemma get_in_iff {V : Type} (d : Dict.t V) (k : string) (v : V) :
  NoDup (Dict.keys d) -> (Dict.get d k = Some v <-> In (k, v) d).
Proof.
  unfold Dict.keys. induction d as [|[k0 v0] d IH]; simpl; intros Hnd.
  - split; [discriminate | tauto].
  - inversion Hnd as [|? ? Hk0 Hnd']; subst.
    destruct (String.eqb_spec k0 k) as [-> | Hne].
    + split.
      * intros H. injection H as <-. now left.
      * intros [H | H]; [now injection H as <- |].
        exfalso. apply Hk0. now apply (in_map fst) in H.
    + rewrite (IH Hnd'). split; [tauto|]. intros [H | H]; [|exact H].
      injection H as -> _. contradiction.
Qed.

Lemma count_perm (l l' : Counter) (k : string) :
  NoDup (Dict.keys l) -> Permutation l l' -> count l k = count l' k.
Proof.
  intros Hnd Hperm.
  assert (Hnd' : NoDup (Dict.keys l')).
  { unfold Dict.keys in *. now rewrite <- Hperm. }
  unfold count.
  destruct (Dict.get l k) as [v|] eqn:E; destruct (Dict.get l' k) as [v'|] eqn:E'.
  - apply (get_in_iff l k v Hnd) in E. apply (get_in_iff l' k v' Hnd') in E'.
    rewrite Hperm in E. apply (get_in_iff l' k v Hnd') in E.
    apply (get_in_iff l' k v' Hnd') in E'. congruence.
  - apply (get_in_iff l k v Hnd) in E. rewrite Hperm in E.
    apply (get_in_iff l' k v Hnd') in E. congruence.
  - apply (get_in_iff l' k v' Hnd') in E'. rewrite <- Hperm in E'.
    apply (get_in_iff l k v' Hnd) in E'. congruence.
  - reflexivity.
Qed.

Lemma matched_keys_incl (table : list (string * list string)) (text : string) :
  incl (matched_keys table text) (map fst table).
Proof.
  unfold matched_keys. intros k Hin. apply in_map_iff in Hin as [tk [<- Hf]].
  apply filter_In in Hf as [Hf _]. now apply in_map.
Qed.

Lemma fold_incr_invariant (keys : list string) (m : Counter) :
  incl keys (map fst theme_patterns) -> themes_invariant m ->
  themes_invariant (fold_left incr keys m).
Proof.
  revert m; induction keys as [|k keys IH]; intros m Hincl Hm; cbn [fold_left].
  - exact Hm.
  - apply IH; [intros x Hx; apply Hincl; now right|].
    destruct Hm as (Hnn & Hnd & Hvoc).
    destruct (incr_invariant m k Hnn Hnd) as (Hnn' & Hnd' & _).
    repeat split; try assumption. unfold incr. rewrite set_keys.
    destruct (Dict.mem m k); [exact Hvoc|].
    intros x Hx. apply in_app_or in Hx as [Hx | [<- | []]]; [now apply Hvoc|].
    apply Hincl. now left.
Qed.

Lemma reviews_themes (reviews : list review) (acc : Counter * Dict.t finding) :
  themes_invariant (fst acc) ->
  themes_invariant (fst (fold_left analyze_review reviews acc))
  /\ forall theme pats,
       In (theme, pats) theme_patterns ->
       count (fst (fold_left analyze_review reviews acc)) theme
       = count (fst acc) theme
         + Z.of_nat (List.length (filter (review_matches pats) reviews)).
Proof.
  revert acc; induction reviews as [|rv reviews IH]; intros acc Hinv;
    cbn [fold_left filter].
  - split; [exact Hinv | intros; cbn; lia].
  - assert (Hstep : themes_invariant (fst (analyze_review acc rv))).
    { unfold analyze_review. destruct (nonempty _); [|exact Hinv].
      rewrite track_themes_fold. apply fold_incr_invariant; [|exact Hinv].
      apply matched_keys_incl. }
    destruct (IH (analyze_review acc rv) Hstep) as [Hinv' Hcount].
    split; [exact Hinv'|]. intros theme pats Hin. rewrite (Hcount theme pats Hin).
    assert (Hone : count (fst (analyze_review acc rv)) theme
                   = count (fst acc) theme + (if review_matches pats rv then 1 else 0)).
    { unfold analyze_review, review_matches.
      destruct (nonempty (review_body rv)); cbn [andb]; [|lia].
      apply (count_track_themes _ _ theme pats Hin). }
    rewrite Hone. destruct (review_matches pats rv); cbn [List.length]; lia.
Qed.

(** X4. When [gh] returns the merged pull requests, the [review_themes]
    finding gives, for each of the eight themes, the number of non-empty
    review bodies, among the pull requests with a file path containing the
    area, whose lower-cased text contains one of the theme's patterns; and
    [relevant_prs] is the number of those pull requests. *)
Theorem review_themes_counts :
  forall (w : World) (pr_limit : Z) (r : Refresher) (prs : list pull_request)
         (theme : string) (pats : list string),
    gh_pr_list w pr_limit = GhOk prs ->
    In (theme, pats) theme_patterns ->
    let r2 := analyze_pr_reviews w pr_limit r in
    count (counts_of (findings r2) "review_themes") theme
    = Z.of_nat (List.length (filter (review_matches pats) (relevant_reviews (area r) prs)))
    /\ count (metrics r2) "relevant_prs"
       = Z.of_nat (List.length (filter (touches_area (area r)) prs)).
Proof.
  intros w limit r prs theme pats Hgh Hin r2. split.
  - unfold r2, analyze_pr_reviews. rewrite Hgh, fold_reviews_flat.
    fold (relevant_reviews (area r) prs).
    destruct (reviews_themes (relevant_reviews (area r) prs) (Dict.empty, findings r))
      as [(Hnn & Hnd & Hvoc) Hcount].
    { repeat split; [constructor | constructor | intros x []]. }
    specialize (Hcount theme pats Hin).
    destruct (fold_left analyze_review _ _) as [themes f].
    cbn [findings with_findings with_metrics fst] in *.
    unfold counts_of. rewrite get_set_same.
    pose proof (sorted_desc_perm snd themes) as Hperm.
    assert (Hlen : (List.length (sorted_desc snd themes) <= 10)%nat).
    { rewrite (Permutation_length Hperm). unfold Dict.keys in *.
      rewrite <- (length_map fst themes).
      pose proof (NoDup_incl_length Hnd Hvoc) as Hle. simpl in Hle. lia. }
    unfold most_common. rewrite firstn_all2 by exact Hlen.
    rewrite of_items_nodup by (unfold Dict.keys in Hnd; now rewrite Hperm).
    rewrite <- (count_perm themes (sorted_desc snd themes) theme Hnd)
      by (symmetry; exact Hperm).
    rewrite Hcount. cbn. lia.
  - unfold r2. rewrite metrics_pr_reviews, Hgh. reflexivity.
Qed.

Lemma review_themes_counts_witness :
  count (counts_of (findings (analyze_pr_reviews review_world 50 sample_refresher))
                   "review_themes") "testing" = 1
  /\ count (metrics (analyze_pr_reviews review_world 50 sample_refresher)) "relevant_prs"
     = 1.
Proof.
  exact (review_themes_counts review_world 50 sample_refresher _ "testing"
           ["test"; "coverage"; "jest"; "spec"; "unit test"; "integration test"]
           eq_refl (or_intror (or_intror (or_introl eq_refl)))).
Defined.

(** ** The file survey, continued *)

Lemma fold_name_entry_closed (entries : list entry) (np : Counter) :
  fold_result name_entry entries np
  = Ok (fold_left incr
          (map (fun e => bucket_name (entry_bucket e)) (filter named_file entries)) np).
Proof.
  revert np; induction entries as [|e entries IH]; intros np;
    cbn [fold_result filter]; [reflexivity|].
  unfold name_entry at 1, named_file at 1.
  destruct (mem_str (suffix (entry_path e)) code_extensions && entry_is_file e) eqn:E;
    cbn [andb bind]; [|apply IH].
  unfold classify_stem. destruct (is_index_file (stem (entry_path e))); cbn [negb bind];
    [apply IH|].
  apply andb_true_iff in E as [Hs _].
  destruct (naming_bucket_total (stem (entry_path e))) as [b Hb].
  { apply stem_of_nonempty. intros Hempty. unfold suffix in Hs. rewrite Hempty in Hs.
    discriminate. }
  assert (He : entry_bucket e = b) by (unfold entry_bucket, bucket_of; now rewrite Hb).
  rewrite Hb. cbn [bind map fold_left]. rewrite He. apply IH.
Qed.

Lemma filter_map_swap {A B : Type} (p : B -> bool) (f : A -> B) (l : list A) :
  filter p (map f l) = map f (filter (fun x => p (f x)) l).
Proof.
  induction l as [|x l IH]; cbn [map filter]; [reflexivity|].
  destruct (p (f x)); cbn [map]; now rewrite IH.
Qed.

Lemma incr_nonempty (m : Counter) (k : string) : incr m k <> [].
Proof.
  unfold incr. destruct m as [|[k' v'] m]; simpl; [discriminate|].
  destruct (String.eqb k' k); discriminate.
Qed.

Lemma fold_incr_nonempty (keys : list string) (m : Counter) :
  keys <> [] -> fold_left incr keys m <> [].
Proof.
  assert (H : forall l m', m' <> [] -> fold_left incr l m' <> []).
  { induction l as [|x l IH]; intros m' Hm; cbn [fold_left]; [exact Hm|].
    apply IH, incr_nonempty. }
  destruct keys as [|k keys]; [congruence|]. intros _. cbn [fold_left].
  apply H, incr_nonempty.
Qed.

(** X5. When the area exists, [total_files] is the number of regular files
    with no hidden path component, and [naming_conventions] counts, for each
    of the five buckets, the regular files with a source-code extension and a
    base name other than index or __init__ (hidden or not) whose base name
    falls in that bucket; when there is no such file the finding is left as
    it was. *)
Theorem survey_counts :
  forall (w : World) (r r' : Refresher) (children : list node) (b : bucket),
    area_tree w = Some children ->
    analyze_file_patterns w r = Ok r' ->
    let entries := rglob (joinpath (repo_root r) (area r)) children in
    count (metrics r') "total_files"
    = Z.of_nat (List.length (filter visible_file entries))
    /\ (filter named_file entries <> [] ->
        count (counts_of (findings r') "naming_conventions") (bucket_name b)
        = Z.of_nat (List.length
                      (filter (fun e => bucket_eqb b (entry_bucket e))
                              (filter named_file entries))))
    /\ (filter named_file entries = [] ->
        Dict.get (findings r') "naming_conventions"
        = Dict.get (findings r) "naming_conventions").
Proof.
  intros w r r' children b Htree H entries. split.
  - rewrite (metrics_file_patterns w r r' "total_files" H), Htree. reflexivity.
  - revert H. unfold analyze_file_patterns. rewrite Htree. fold entries.
    destruct (fold_left count_entry entries _) as [ft total].
    rewrite fold_name_entry_closed. cbn [bind]. intros H. injection H as <-.
    cbn [findings with_findings with_metrics]. split.
    + intros Hne.
      set (keys := map (fun e => bucket_name (entry_bucket e)) (filter named_file entries)).
      assert (Hk : keys <> []).
      { unfold keys. destruct (filter named_file entries); [congruence | discriminate]. }
      pose proof (fold_incr_nonempty keys Dict.empty Hk) as Hnp.
      destruct (fold_left incr keys Dict.empty) as [|kv np] eqn:Enp; [congruence|].
      cbn [is_empty]. unfold counts_of. rewrite get_set_same, <- Enp, count_fold_incr.
      unfold occurrences, keys. rewrite filter_map_swap, length_map.
      cbn. f_equal. f_equal. apply filter_ext. intros e. apply bucket_name_eqb.
    + intros Hnone. rewrite Hnone. unfold Dict.empty. cbn [map fold_left is_empty].
      now rewrite get_set_other by discriminate.
Qed.

Lemma survey_counts_witness :
  exists r',
    analyze_file_patterns hidden_world sample_refresher = Ok r'
    /\ count (metrics r') "total_files" = 0
    /\ count (counts_of (findings r') "naming_conventions") "camelCase" = 1.
Proof.
  destruct (analyze_file_patterns_total hidden_world sample_refresher) as [r' H].
  exists r'. split; [exact H|].
  destruct (survey_counts hidden_world sample_refresher r' hidden_tree camelCase
              eq_refl H) as (Ht & Hn & _).
  split; [exact Ht|]. apply Hn. discriminate.
Defined.

Lemma count_entries_suffixes (entries : list entry) (acc : Counter * Z) :
  nonneg_counts (fst acc) -> Forall counted_suffix (fst acc) ->
  Forall counted_suffix (fst (fold_left count_entry entries acc)).
Proof.
  revert acc; induction entries as [|e entries IH]; intros acc Hnn Hc; cbn [fold_left].
  - exact Hc.
  - assert (Hstep : nonneg_counts (fst (count_entry acc e))
                    /\ Forall counted_suffix (fst (count_entry acc e))).
    { unfold count_entry. destruct (has_hidden_part _); [tauto|].
      destruct (entry_is_file e); [|tauto].
      destruct (nonempty (suffix (entry_path e))) eqn:E; cbn [fst]; [|tauto].
      pose proof (count_nonneg (fst acc) (suffix (entry_path e)) Hnn) as Hk.
      unfold incr. split; apply set_forall; try assumption.
      - simpl. lia.
      - split; [simpl; lia|]. cbn [fst]. intros Hempty. rewrite Hempty in E. discriminate. }
    destruct Hstep. now apply IH.
Qed.

Lemma insert_desc_sorted {A : Type} (key : A -> Z) (x : A) (l : list A) :
  Sorted (fun a b => key b <= key a) l ->
  Sorted (fun a b => key b <= key a) (insert_desc key x l).
Proof.
  induction 1 as [|y l Hl IH Hhd]; cbn [insert_desc].
  - repeat constructor.
  - destruct (Z.leb_spec (key y) (key x)) as [Hle | Hgt].
    + constructor; [now constructor | now constructor].
    + constructor; [exact IH|].
      destruct l as [|z l]; cbn [insert_desc].
      * constructor. lia.
      * destruct (key z <=? key x); constructor; [lia|].
        now inversion Hhd.
Qed.

Lemma sorted_desc_sorted {A : Type} (key : A -> Z) (l : list A) :
  Sorted (fun a b => key b <= key a) (sorted_desc key l).
Proof.
  unfold sorted_desc. induction l as [|x l IH]; cbn [fold_right]; [constructor|].
  now apply insert_desc_sorted.
Qed.

Lemma sorted_firstn {A : Type} (R : A -> A -> Prop) (n : nat) (l : list A) :
  Sorted R l -> Sorted R (firstn n l).
Proof.
  intros H. revert n. induction H as [|x l Hl IH Hhd]; intros n.
  - rewrite firstn_nil. constructor.
  - destruct n as [|n]; cbn [firstn]; [constructor|]. constructor; [apply IH|].
    destruct Hhd as [|y l' Hxy]; [destruct n; constructor|].
    destruct n; cbn [firstn]; now constructor.
Qed.

Lemma forall_firstn {A : Type} (P : A -> Prop) (n : nat) (l : list A) :
  Forall P l -> Forall P (firstn n l).
Proof.
  intros H. revert n. induction H as [|x l Hx Hl IH]; intros n.
  - rewrite firstn_nil. constructor.
  - destruct n; cbn [firstn]; constructor; [exact Hx | apply IH].
Qed.

(** X6. When the area exists, the [file_types] finding holds at most ten
    extensions, each once and none empty, every count at least 1, larger
    counts first, and the counts sum to at most [total_files]. *)
Theorem file_types_top_ten :
  forall (w : World) (r r' : Refresher) (children : list node),
    area_tree w = Some children ->
    analyze_file_patterns w r = Ok r' ->
    let ft := counts_of (findings r') "file_types" in
    (List.length ft <= 10)%nat
    /\ NoDup (Dict.keys ft)
    /\ Forall counted_suffix ft
    /\ Sorted count_ge ft
    /\ sum_counts ft <= count (metrics r') "total_files".
Proof.
  intros w r r' children Htree H ft.
  destruct (findings_file_patterns w r r' H) as [Hcase _]. rewrite Htree in Hcase.
  cbv zeta in Hcase. destruct Hcase as [Hft Htotal].
  set (acc := fold_left count_entry (rglob (joinpath (repo_root r) (area r)) children)
                        (Dict.empty, 0)) in *.
  assert (Hinv : survey_invariant acc).
  { apply count_entries_invariant. repeat split; [constructor | constructor | cbn; lia]. }
  assert (Hsfx : Forall counted_suffix (fst acc)).
  { apply count_entries_suffixes; constructor. }
  destruct (most_common_file_types (fst acc) (snd acc)) as (Heq & _ & Hsum).
  { now destruct acc. }
  destruct Hinv as (_ & Hnd & _).
  pose proof (sorted_desc_perm snd (fst acc)) as Hperm.
  unfold ft, counts_of. rewrite Hft, Heq, Htotal.
  split; [apply firstn_le_length|].
  split.
  { unfold Dict.keys in *. rewrite <- firstn_map. apply nodup_firstn. now rewrite Hperm. }
  split; [apply forall_firstn; now rewrite Hperm|].
  split; [apply sorted_firstn, (sorted_desc_sorted snd)|].
  rewrite <- Heq. exact Hsum.
Qed.

Lemma file_types_top_ten_witness :
  exists r',
    analyze_file_patterns sample_world sample_refresher = Ok r'
    /\ (List.length (counts_of (findings r') "file_types") <= 10)%nat
    /\ Sorted count_ge (counts_of (findings r') "file_types").
Proof.
  destruct (analyze_file_patterns_total sample_world sample_refresher) as [r' H].
  exists r'. split; [exact H|].
  destruct (file_types_top_ten sample_world sample_refresher r' sample_tree eq_refl H)
    as (Hlen & _ & _ & Hsorted & _).
  split; [exact Hlen | exact Hsorted].
Defined.

(** ** Rendering the guidelines *)

Lemma max_by_count_spec (l : list (string * Z)) (best : string * Z) :
  In (max_by_count best l) (best :: l)
  /\ forall x, In x (best :: l) -> snd x <= snd (max_by_count best l).
Proof.
  revert best; induction l as [|y l IH]; intros best; cbn [max_by_count].
  - split; [now left|]. intros x [<- | []]. lia.
  - destruct (IH (if snd best <? snd y then y else best)) as [Hin Hmax].
    split.
    + destruct Hin as [Hin | Hin]; [|now right; right].
      rewrite <- Hin. destruct (snd best <? snd y); [right; now left | now left].
    + pose proof (Hmax _ (or_introl eq_refl)) as Hbest.
      intros x [Hx | [Hx | Hx]]; [subst x | subst x | apply Hmax; now right];
        destruct (Z.ltb_spec (snd best) (snd y)); lia.
Qed.

(** X7. The pattern the Naming Conventions section recommends is a bucket of
    the [naming_conventions] finding, with its count, and no bucket of the
    finding has a larger count. *)
Theorem dominant_is_most_frequent :
  forall (r : Refresher) (first : string * Z) (rest : list (string * Z)),
    counts_of (findings r) "naming_conventions" = first :: rest ->
    let dominant := max_by_count first rest in
    In dominant (counts_of (findings r) "naming_conventions")
    /\ (forall pc, In pc (counts_of (findings r) "naming_conventions") ->
                   snd pc <= snd dominant)
    /\ exists pre,
         naming_section r
         = pre ++ "**Recommendation:** Follow `" ++ fst dominant
               ++ "` pattern (dominant in " ++ str_of_Z (snd dominant) ++ " files)"
               ++ nl ++ nl.
Proof.
  intros r first rest Hnc dominant. rewrite Hnc.
  destruct (max_by_count_spec rest first) as [Hin Hmax].
  split; [exact Hin|]. split; [exact Hmax|].
  unfold naming_section. rewrite Hnc. fold dominant.
  eexists. rewrite <- !append_assoc. reflexivity.
Qed.

Lemma dominant_is_most_frequent_witness :
  In ("camelCase", 5)
     (counts_of (findings (with_findings sample_refresher
                             [("naming_conventions",
                               Counts [("PascalCase", 3); ("camelCase", 5)])]))
                "naming_conventions").
Proof.
  exact (proj1 (dominant_is_most_frequent
                  (with_findings sample_refresher
                     [("naming_conventions", Counts [("PascalCase", 3); ("camelCase", 5)])])
                  ("PascalCase", 3) [("camelCase", 5)] eq_refl)).
Defined.





(** ** The guidelines file of an area *)





(** ** Files written by a run *)

Lemma string_of_uint_no_slash (d : Decimal.uint) :
  any_char (Ascii.eqb "/"%char) (NilEmpty.string_of_uint d) = false.
Proof.
  induction d; cbn [NilEmpty.string_of_uint any_char]; try reflexivity; exact IHd.
Qed.

Lemma str_of_Z_no_slash (z : Z) : any_char (Ascii.eqb "/"%char) (str_of_Z z) = false.
Proof.
  unfold str_of_Z. destruct (Z.to_int z) as [d | d]; cbn [NilEmpty.string_of_int any_char].
  - apply string_of_uint_no_slash.
  - apply string_of_uint_no_slash.
Qed.

Lemma zeros_no_slash (k : nat) :
  any_char (Ascii.eqb "/"%char) (String.concat EmptyString (repeat "0" k)) = false.
Proof.
  induction k as [|k IH]; [reflexivity|]. cbn [repeat String.concat].
  destruct (repeat "0" k) as [|x l]; [reflexivity|].
  rewrite any_char_append. cbn [any_char String.append] in *. exact IH.
Qed.

Lemma zero_pad_no_slash (width : nat) (n : Z) :
  any_char (Ascii.eqb "/"%char) (zero_pad width n) = false.
Proof.
  unfold zero_pad. now rewrite any_char_append, zeros_no_slash, str_of_Z_no_slash.
Qed.

Lemma strftime_compact_no_slash (t : datetime) :
  any_char (Ascii.eqb "/"%char) (strftime_compact t) = false.
Proof.
  unfold strftime_compact. rewrite !any_char_append, !zero_pad_no_slash. reflexivity.
Qed.

Lemma relative_without_slash (s : string) :
  any_char (Ascii.eqb "/"%char) s = false -> startswith s "/" = false.
Proof.
  destruct s as [|c s]; [reflexivity|]. cbn [any_char startswith].
  rewrite orb_false_iff. intros [-> _]. reflexivity.
Qed.

Lemma backup_path_parts (r : Refresher) (t : datetime) :
  backup_path r t
  = (repo_root r
     ++ [".claude"; "guidelines";
         (normalized_filename (area r) ++ "." ++ strftime_compact t ++ ".md.bak")%string])%list.
Proof.
  unfold backup_path.
  assert (Hns : any_char (Ascii.eqb "/"%char)
                  (normalized_filename (area r) ++ "." ++ strftime_compact t ++ ".md.bak")
                = false).
  { rewrite !any_char_append, normalized_filename_no_slash, strftime_compact_no_slash.
    reflexivity. }
  rewrite (joinpath_relative _
             (normalized_filename (area r) ++ "." ++ strftime_compact t ++ ".md.bak")
             (relative_without_slash _ Hns)).
  rewrite (joinpath_relative _ ".claude/guidelines" eq_refl).
  change (parse ".claude/guidelines") with [".claude"; "guidelines"].
  rewrite parse_component; [|exact Hns|rewrite !length_append; simpl; lia].
  now rewrite <- app_assoc.
Qed.

Lemma report_path_parts (r : Refresher) (t : datetime) :
  report_path_at r t
  = (repo_root r
     ++ [".claude"; "reports";
         ("guideline-refresh-" ++ strftime_compact t ++ ".md")%string])%list.
Proof.
  unfold report_path_at.
  assert (Hns : any_char (Ascii.eqb "/"%char)
                  ("guideline-refresh-" ++ strftime_compact t ++ ".md") = false).
  { rewrite !any_char_append, strftime_compact_no_slash. reflexivity. }
  rewrite (joinpath_relative _ ("guideline-refresh-" ++ strftime_compact t ++ ".md")
             (relative_without_slash _ Hns)).
  rewrite (joinpath_relative _ ".claude/reports" eq_refl).
  change (parse ".claude/reports") with [".claude"; "reports"].
  rewrite parse_component; [|exact Hns|rewrite !length_append; simpl; lia].
  now rewrite <- app_assoc.
Qed.

Lemma backup_path_differs (r : Refresher) (t : datetime) : backup_path r t <> save_path r.
Proof.
  rewrite backup_path_parts, save_path_parts. intros H. apply app_inv_head in H.
  injection H as H. apply append_cancel_l in H. injection H as H.
  apply (f_equal String.length) in H. rewrite length_append in H. simpl in H. lia.
Qed.

Lemma read_remove_other (fs : list (Path * string)) (p q : Path) :
  p <> q -> read_file (remove_file fs p) q = read_file fs q.
Proof.
  intros Hpq. induction fs as [|[q0 old] fs IH]; [reflexivity|]. cbn [remove_file read_file].
  destruct (Pathlib.eqb q0 p) eqn:E.
  - apply eqb_path_eq in E. subst q0.
    destruct (Pathlib.eqb p q) eqn:E'; [apply eqb_path_eq in E'; contradiction | reflexivity].
  - cbn [read_file]. now rewrite IH.
Qed.

(** X10. [save_guidelines] keeps the previous text when a backup is wanted:
    if a guidelines file exists and [backup_previous] is not false, then
    afterwards the guidelines path holds the new text, the backup path
    (named after the clock reading taken for it) holds the previous text,
    and every other file is as before. Without a previous file, or with
    [backup_previous] false, only the guidelines path is written and the
    clock is not read. *)
Theorem save_guidelines_backup :
  forall (w : World) (r : Refresher) (guidelines : string),
    let w' := snd (save_guidelines w r guidelines) in
    let t := clock w (ticks w) in
    (forall previous,
        read_file (files w) (save_path r) = Some previous ->
        wants_backup (config r) = true ->
        read_file (files w') (save_path r) = Some guidelines
        /\ read_file (files w') (backup_path r t) = Some previous
        /\ (forall p, p <> save_path r -> p <> backup_path r t ->
                      read_file (files w') p = read_file (files w) p)
        /\ ticks w' = S (ticks w))
    /\ (read_file (files w) (save_path r) = None \/ wants_backup (config r) = false ->
        read_file (files w') (save_path r) = Some guidelines
        /\ (forall p, p <> save_path r -> read_file (files w') p = read_file (files w) p)
        /\ ticks w' = ticks w).
Proof.
  intros w r guidelines w' t. unfold w', save_guidelines, exists_file. cbn [snd]. split.
  - intros previous Hprev Hwant. rewrite Hprev, Hwant. cbn [andb now].
    unfold with_files, rename_file. cbn [files ticks clock]. rewrite Hprev. fold t.
    split; [apply read_write_same|]. split; [|split; [|reflexivity]].
    + rewrite read_write_other by (apply not_eq_sym, backup_path_differs).
      apply read_write_same.
    + intros p Hp Hb. rewrite read_write_other by (apply not_eq_sym; exact Hp).
      rewrite read_write_other by (apply not_eq_sym; exact Hb).
      apply read_remove_other. apply not_eq_sym. exact Hp.
  - intros Hcase.
    assert (Hno : (match read_file (files w) (save_path r) with
                   | Some _ => true
                   | None => false
                   end && wants_backup (config r)) = false).
    { destruct Hcase as [-> | ->]; [reflexivity | apply andb_false_r]. }
    rewrite Hno. unfold with_files. cbn [files ticks].
    split; [apply read_write_same|]. split; [|reflexivity].
    intros p Hp. apply read_write_other. apply not_eq_sym. exact Hp.
Qed.

(** X11. [generate_report] reads the clock twice and writes one file, under
    [.claude/reports] of the repository root, named after the first reading
    and dated in its text with the second; it returns that path, and every
    other file, the guidelines file among them, is as before. *)
Theorem generate_report_writes_one_file :
  forall (w : World) (r : Refresher),
    let p := fst (generate_report w r) in
    let w' := snd (generate_report w r) in
    p = (repo_root r
         ++ [".claude"; "reports";
             ("guideline-refresh-" ++ strftime_compact (clock w (ticks w)) ++ ".md")%string])%list
    /\ read_file (files w') p = Some (report_text r (clock w (S (ticks w))))
    /\ (forall q, q <> p -> read_file (files w') q = read_file (files w) q)
    /\ read_file (files w') (save_path r) = read_file (files w) (save_path r)
    /\ ticks w' = S (S (ticks w)).
Proof.
  intros w r p w'. unfold p, w', generate_report. cbn [now fst snd].
  unfold with_files. cbn [files ticks clock].
  split; [apply report_path_parts|]. split; [apply read_write_same|].
  split; [|split; [|reflexivity]].
  - intros q Hq. apply read_write_other. apply not_eq_sym. exact Hq.
  - apply read_write_other. apply report_path_differs.
Qed.

Lemma save_guidelines_backup_witness :
  read_file (files (snd (save_guidelines world_with_previous sample_refresher "new text")))
            (backup_path sample_refresher (sample_clock 0))
  = Some ("# Coding Guidelines: lib/widgets" ++ nl).
Proof.
  exact (proj1 (proj2 (proj1 (save_guidelines_backup world_with_previous sample_refresher
                                "new text") _ eq_refl eq_refl))).
Defined.

(** ** The outcome of [run] and of [main] *)

Lemma analysis_identity (w : World) (days limit : Z) (r r3 : Refresher) :
  analysis_phases w days limit r = Ok r3 -> same_identity r r3.
Proof.
  unfold analysis_phases. intros H3. apply analyze_file_patterns_identity in H3.
  eapply same_identity_trans; [apply analyze_git_history_identity|].
  eapply same_identity_trans; [apply analyze_pr_reviews_identity | exact H3].
Qed.

Lemma analysis_after_tick (w : World) (days limit : Z) (r : Refresher) :
  analyze_file_patterns (snd (now w))
    (analyze_pr_reviews (snd (now w)) limit (analyze_git_history (snd (now w)) days r))
  = analysis_phases w days limit r.
Proof.
  unfold analysis_phases.
  destruct (analyses_same_inputs w (snd (now w)) days limit r (now_same_inputs w))
    as (-> & _ & _).
  destruct (analyses_same_inputs w (snd (now w)) days limit
              (analyze_git_history (snd (now w)) days r) (now_same_inputs w))
    as (_ & -> & _).
  destruct (analyses_same_inputs w (snd (now w)) days limit
              (analyze_pr_reviews (snd (now w)) limit
                 (analyze_git_history (snd (now w)) days r)) (now_same_inputs w))
    as (_ & _ & ->).
  reflexivity.
Qed.

(** [run] once the preset is found, as a function of the analysis and of
    the generation. *)
Lemma run_with_preset (fuel : nat) (depth : string) (w : World) (r : Refresher)
    (preset : Dict.t Z) (days limit : Z) :
  Dict.get (analysis_depth (config r)) depth = Some preset ->
  Dict.get preset "commit_days" = Some days ->
  Dict.get preset "pr_limit" = Some limit ->
  exists r3,
    analysis_phases w days limit r = Ok r3
    /\ load_current_guidelines (snd (now (snd (now w)))) r3 = load_current_guidelines w r
    /\ run fuel depth w r
       = (guidelines <- generate_updated_guidelines fuel (snd (now (snd (now w))))
                          (clock w (S (ticks w))) r3 ;;
          let '(gpath, w2) := save_guidelines (snd (now (snd (now w)))) r3 guidelines in
          let '(rpath, w3) := generate_report w2 r3 in
          Ok (mk_result gpath rpath (metrics r3)
                (filter (fun kv => negb (endswith (fst kv) "_feedback")) (findings r3)),
              r3, w3)).
Proof.
  intros Hd Hc Hp.
  destruct (analyze_file_patterns_total w
              (analyze_pr_reviews w limit (analyze_git_history w days r))) as [r3 H3].
  exists r3. split; [exact H3|]. split.
  - unfold load_current_guidelines. cbn [now snd files].
    now rewrite (load_path_identity r r3 (analysis_identity w days limit r r3 H3)).
  - unfold run, getitem. rewrite Hd, Hc, Hp. cbn [bind].
    change (now w) with (fst (now w), snd (now w)). cbv iota beta.
    rewrite analysis_after_tick. unfold analysis_phases. rewrite H3. cbn [bind].
    reflexivity.
Qed.

Lemma run_first (frames : nat) (depth : string) (w : World) (r : Refresher)
    (preset : Dict.t Z) (days limit : Z) :
  Dict.get (analysis_depth (config r)) depth = Some preset ->
  Dict.get preset "commit_days" = Some days ->
  Dict.get preset "pr_limit" = Some limit ->
  load_current_guidelines w r = None \/ load_current_guidelines w r = Some EmptyString ->
  exists out r3 w',
    run (S frames) depth w r = Ok (out, r3, w')
    /\ analysis_phases w days limit r = Ok r3.
Proof.
  intros Hd Hc Hp Hload.
  destruct (run_with_preset (S frames) depth w r preset days limit Hd Hc Hp)
    as (r3 & H3 & Hl & ->).
  rewrite generate_first_version by (rewrite Hl; exact Hload). cbn [bind].
  destruct (save_guidelines _ r3 _) as [gpath w2].
  destruct (generate_report w2 r3) as [rpath w3]. eauto.
Qed.

Lemma run_previous (fuel : nat) (depth : string) (w : World) (r : Refresher)
    (preset : Dict.t Z) (days limit : Z) (c : ascii) (old : string) :
  Dict.get (analysis_depth (config r)) depth = Some preset ->
  Dict.get preset "commit_days" = Some days ->
  Dict.get preset "pr_limit" = Some limit ->
  load_current_guidelines w r = Some (String c old) ->
  run fuel depth w r = Raise RecursionError.
Proof.
  intros Hd Hc Hp Hload.
  destruct (run_with_preset fuel depth w r preset days limit Hd Hc Hp)
    as (r3 & H3 & Hl & ->).
  rewrite (generate_with_previous fuel _ _ r3 c old) by (rewrite Hl; exact Hload).
  reflexivity.
Qed.

(** X12. What [run] can end in, given at least one stack frame. It returns
    only when the depth is a key of the configuration whose preset has both
    [commit_days] and [pr_limit] and no non-empty guidelines file exists; it
    raises [SystemExit(1)] only for an unknown depth, [KeyError] only for a
    preset that lacks one of the two keys ([commit_days] is read first),
    [RecursionError] only when a non-empty guidelines file exists, and never
    [IndexError]. *)
Theorem run_outcome :
  forall (frames : nat) (depth : string) (w : World) (r : Refresher),
    match run (S frames) depth w r with
    | Ok (out, r', w') =>
        (exists preset days limit,
            Dict.get (analysis_depth (config r)) depth = Some preset
            /\ Dict.get preset "commit_days" = Some days
            /\ Dict.get preset "pr_limit" = Some limit
            /\ analysis_phases w days limit r = Ok r')
        /\ (load_current_guidelines w r = None
            \/ load_current_guidelines w r = Some EmptyString)
    | Raise (SystemExit code) =>
        code = 1 /\ Dict.get (analysis_depth (config r)) depth = None
    | Raise (KeyError k) =>
        exists preset,
          Dict.get (analysis_depth (config r)) depth = Some preset
          /\ Dict.get preset k = None
          /\ (k = "commit_days"
              \/ (k = "pr_limit" /\ Dict.mem preset "commit_days" = true))
    | Raise RecursionError =>
        exists c old, load_current_guidelines w r = Some (String c old)
    | Raise IndexError => False
    end.
Proof.
  intros frames depth w r.
  destruct (Dict.get (analysis_depth (config r)) depth) as [preset|] eqn:Hd;
    [|unfold run; rewrite Hd; split; reflexivity].
  destruct (Dict.get preset "commit_days") as [days|] eqn:Hc;
    [|unfold run, getitem; rewrite Hd, Hc; cbn [bind]; exists preset; auto].
  destruct (Dict.get preset "pr_limit") as [limit|] eqn:Hp.
  - destruct (load_current_guidelines w r) as [[|c old]|] eqn:Hload.
    + destruct (run_first frames depth w r preset days limit Hd Hc Hp)
        as (out & r3 & w' & -> & H3); [now right|].
      split; [exists preset, days, limit; auto | now right].
    + rewrite (run_previous _ depth w r preset days limit c old Hd Hc Hp Hload). eauto.
    + destruct (run_first frames depth w r preset days limit Hd Hc Hp)
        as (out & r3 & w' & -> & H3); [now left|].
      split; [exists preset, days, limit; auto | now left].
  - unfold run, getitem. rewrite Hd, Hc, Hp. cbn [bind].
    change (now w) with (fst (now w), snd (now w)). cbv iota beta. cbn [bind].
    exists preset. split; [reflexivity|]. split; [exact Hp|]. right.
    split; [reflexivity|]. unfold Dict.mem. now rewrite Hc.
Qed.

Lemma run_ok_preset (fuel : nat) (depth : string) (w w' : World) (r r' : Refresher)
    (out : run_result) :
  run fuel depth w r = Ok (out, r', w') ->
  exists preset days limit,
    Dict.get (analysis_depth (config r)) depth = Some preset
    /\ Dict.get preset "commit_days" = Some days
    /\ Dict.get preset "pr_limit" = Some limit.
Proof.
  unfold run, getitem.
  destruct (Dict.get (analysis_depth (config r)) depth) as [preset|] eqn:Hd;
    [|discriminate].
  destruct (Dict.get preset "commit_days") as [days|] eqn:Hc; [|discriminate].
  cbn [bind]. change (now w) with (fst (now w), snd (now w)). cbv iota beta.
  destruct (Dict.get preset "pr_limit") as [limit|] eqn:Hp; [|discriminate].
  intros _. exists preset, days, limit. repeat split; assumption.
Qed.

Lemma paths_identity (r r' : Refresher) (t : datetime) :
  same_identity r r' ->
  save_path r' = save_path r /\ report_path_at r' t = report_path_at r t.
Proof.
  intros (Ha & Hr & _). unfold save_path, report_path_at. now rewrite Ha, Hr.
Qed.

(** X13. A run that returns on an area with no guidelines file reads the
    clock four times and writes exactly two files: the guidelines, at the
    path of the area, dated with the second reading, and the report, named
    after the third reading and dated with the fourth. No backup is made.
    The dictionary it returns holds the metrics and the findings without the
    feedback samples. *)
Theorem first_run_writes :
  forall (frames : nat) (depth : string) (w w' : World) (r r' : Refresher)
         (out : run_result),
    run (S frames) depth w r = Ok (out, r', w') ->
    load_current_guidelines w r = None ->
    guidelines_path out = save_path r
    /\ report_path out = report_path_at r (clock w (S (S (ticks w))))
    /\ files w'
       = write_file
           (write_file (files w) (save_path r)
              (guidelines_body r' (clock w (S (ticks w)))
               ++ changes_heading ++ first_version_note ++ trailer))
           (report_path out)
           (report_text r' (clock w (S (S (S (ticks w))))))
    /\ ticks w' = S (S (S (S (ticks w))))
    /\ result_metrics out = metrics r'
    /\ (forall k v,
           In (k, v) (result_findings out)
           <-> In (k, v) (findings r') /\ endswith k "_feedback" = false).
Proof.
  intros frames depth w w' r r' out H Hload.
  destruct (run_ok_preset _ _ _ _ _ _ _ H) as (preset & days & limit & Hd & Hc & Hp).
  destruct (run_with_preset (S frames) depth w r preset days limit Hd Hc Hp)
    as (r3 & H3 & Hl & Hrun).
  rewrite Hrun in H. rewrite Hload in Hl.
  rewrite generate_first_version in H by (left; exact Hl). cbn [bind] in H.
  assert (Hex : exists_file (files (snd (now (snd (now w))))) (save_path r3) = false).
  { unfold exists_file. unfold load_current_guidelines in Hl.
    rewrite load_path_save_path in Hl. now rewrite Hl. }
  unfold save_guidelines in H. rewrite Hex in H. cbn [andb] in H.
  unfold generate_report in H. cbn [now] in H. unfold with_files in H.
  cbn [files ticks clock snd] in H. injection H as <- <- <-.
  cbn [guidelines_path report_path result_metrics result_findings files ticks].
  destruct (paths_identity r r3 (clock w (S (S (ticks w))))
              (analysis_identity w days limit r r3 H3)) as [-> ->].
  do 5 (split; [reflexivity|]). intros k v. rewrite filter_In. cbn [fst].
  rewrite negb_true_iff. reflexivity.
Qed.

Lemma first_run_writes_witness :
  exists out r' w',
    run 1000 "standard" sample_world sample_refresher = Ok (out, r', w')
    /\ guidelines_path out = ["/"; "repo"; ".claude"; "guidelines"; "lib_widgets.md"]
    /\ ticks w' = 4%nat.
Proof.
  destruct (run 1000 "standard" sample_world sample_refresher)
    as [[[out r'] w']|e] eqn:E; [|vm_compute in E; discriminate].
  exists out, r', w'. split; [reflexivity|].
  destruct (first_run_writes 999 "standard" sample_world w' sample_refresher r' out E
              eq_refl) as (Hg & _ & _ & Ht & _).
  split; [rewrite Hg; reflexivity | exact Ht].
Defined.

(** ** [main] *)






(** ** An area under a hidden directory *)

Fixpoint rglob_node_prefix (n : node) (base : Path) (e : entry) {struct n} :
  In e (rglob_node base n) -> exists rel, entry_path e = (base ++ rel)%list.
Proof.
  destruct n as [f | d children]; cbn [rglob_node].
  - intros [<- | []]. now exists [f].
  - intros [<- | Hin]; [now exists [d]|].
    induction children as [|c children IHc]; [destruct Hin|].
    cbn [flat_map] in Hin. apply in_app_or in Hin as [Hin | Hin].
    + destruct (rglob_node_prefix c _ _ Hin) as [rel Hrel]. exists (d :: rel).
      rewrite Hrel, <- app_assoc. reflexivity.
    + now apply IHc.
Qed.

Lemma rglob_prefix (base : Path) (children : list node) (e : entry) :
  In e (rglob base children) -> exists rel, entry_path e = (base ++ rel)%list.
Proof.
  unfold rglob. intros Hin. apply in_flat_map in Hin as [n [_ Hin]].
  now apply (rglob_node_prefix n).
Qed.

Lemma count_entries_hidden (entries : list entry) (acc : Counter * Z) :
  Forall (fun e => has_hidden_part (entry_path e) = true) entries ->
  fold_left count_entry entries acc = acc.
Proof.
  intros H. revert acc. induction H as [|e entries He Hl IH]; intros acc; cbn [fold_left].
  - reflexivity.
  - unfold count_entry at 2. rewrite He. apply IH.
Qed.

(** X16. When the path of the area itself has a component that starts with
    a dot (the repository lies under a hidden directory, or the area is one,
    or the area goes through ".."), every entry below it counts as hidden:
    the survey reports no file at all, [total_files] is 0 and [file_types]
    is empty, whatever the directory holds. *)
Theorem hidden_area_counts_nothing :
  forall (w : World) (r r' : Refresher) (children : list node),
    area_tree w = Some children ->
    has_hidden_part (joinpath (repo_root r) (area r)) = true ->
    analyze_file_patterns w r = Ok r' ->
    count (metrics r') "total_files" = 0
    /\ Dict.get (findings r') "file_types" = Some (Counts []).
Proof.
  intros w r r' children Htree Hhid H.
  destruct (findings_file_patterns w r r' H) as [Hcase _]. rewrite Htree in Hcase.
  cbv zeta in Hcase. destruct Hcase as [Hft Htotal].
  rewrite count_entries_hidden in Hft, Htotal.
  - split; [exact Htotal | exact Hft].
  - apply Forall_forall. intros e Hin. apply rglob_prefix in Hin as [rel ->].
    unfold has_hidden_part in *. rewrite existsb_app, Hhid. reflexivity.
  - apply Forall_forall. intros e Hin. apply rglob_prefix in Hin as [rel ->].
    unfold has_hidden_part in *. rewrite existsb_app, Hhid. reflexivity.
Qed.

Lemma hidden_area_counts_nothing_witness :
  exists r',
    analyze_file_patterns sample_world hidden_area_refresher = Ok r'
    /\ count (metrics r') "total_files" = 0.
Proof.
  destruct (analyze_file_patterns_total sample_world hidden_area_refresher) as [r' H].
  exists r'. split; [exact H|].
  exact (proj1 (hidden_area_counts_nothing sample_world hidden_area_refresher r'
                  sample_tree eq_refl eq_refl H)).
Defined.

(** ** The keys of the metrics and of the findings *)

Lemma set_keys_incl {V : Type} (d : Dict.t V) (k : string) (v : V) (voc : list string) :
  incl (Dict.keys d) voc -> In k voc -> incl (Dict.keys (Dict.set d k v)) voc.
Proof.
  intros Hd Hk. rewrite set_keys. destruct (Dict.mem d k); [exact Hd|].
  intros x Hx. apply in_app_or in Hx as [Hx | [<- | []]]; [now apply Hd | exact Hk].
Qed.

Lemma fold_incr_keys (keys voc : list string) (m : Counter) :
  incl keys voc -> incl (Dict.keys m) voc -> incl (Dict.keys (fold_left incr keys m)) voc.
Proof.
  revert m; induction keys as [|k keys IH]; intros m Hk Hm; cbn [fold_left]; [exact Hm|].
  apply IH; [intros x Hx; apply Hk; now right|].
  apply set_keys_incl; [exact Hm | apply Hk; now left].
Qed.

Lemma analyze_commit_keys (r : Refresher) (commit : string) :
  incl (Dict.keys (metrics r)) metric_vocabulary ->
  incl (Dict.keys (findings r)) finding_vocabulary ->
  incl (Dict.keys (metrics (analyze_commit r commit))) metric_vocabulary
  /\ incl (Dict.keys (findings (analyze_commit r commit))) finding_vocabulary.
Proof.
  intros Hm Hf. unfold analyze_commit. cbn [metrics findings with_metrics with_findings].
  split.
  - rewrite track_technologies_fold. apply fold_incr_keys; [|exact Hm].
    intros k Hk. apply in_map_iff in Hk as [tech [<- Hin]].
    apply matched_keys_incl in Hin. unfold metric_vocabulary. apply in_or_app. right.
    now apply in_map.
  - destruct (any_keyword refactor_keywords _); [|exact Hf]. unfold append_record.
    destruct (Dict.get (findings r) "refactor_commits") as [[l|d|l]|];
      (apply set_keys_incl; [exact Hf | now left]).
Qed.

Lemma git_history_keys (w : World) (days : Z) (r : Refresher) :
  incl (Dict.keys (metrics r)) metric_vocabulary ->
  incl (Dict.keys (findings r)) finding_vocabulary ->
  incl (Dict.keys (metrics (analyze_git_history w days r))) metric_vocabulary
  /\ incl (Dict.keys (findings (analyze_git_history w days r))) finding_vocabulary.
Proof.
  intros Hm Hf. unfold analyze_git_history. destruct (git_log w days) as [stdout|].
  - set (r1 := with_metrics r _).
    assert (H1 : incl (Dict.keys (metrics r1)) metric_vocabulary
                 /\ incl (Dict.keys (findings r1)) finding_vocabulary).
    { split; [|exact Hf]. apply set_keys_incl; [exact Hm | now left]. }
    revert H1. generalize r1.
    induction (filter nonempty (splitlines_nl (strip stdout))) as [|c l IH];
      intros r0 [H0m H0f]; cbn [fold_left]; [now split|].
    apply IH. now apply analyze_commit_keys.
  - cbn [metrics findings with_metrics]. split; [|exact Hf].
    apply set_keys_incl; [exact Hm | now left].
Qed.

Lemma reviews_keys (reviews : list review) (acc : Counter * Dict.t finding) :
  incl (Dict.keys (snd acc)) finding_vocabulary ->
  incl (Dict.keys (snd (fold_left analyze_review reviews acc))) finding_vocabulary.
Proof.
  revert acc; induction reviews as [|rv reviews IH]; intros acc H; cbn [fold_left];
    [exact H|].
  apply IH. unfold analyze_review. destruct (nonempty _); [|exact H].
  unfold track_themes.
  assert (Hvoc : forall tp, In tp theme_patterns ->
                            In (fst tp ++ "_feedback") finding_vocabulary).
  { intros tp Hin. unfold finding_vocabulary. apply in_or_app. right.
    apply in_map_iff. exists (fst tp). split; [reflexivity | now apply in_map]. }
  revert Hvoc H. generalize theme_patterns as table. intros table; revert acc.
  induction table as [|tp table IHt]; intros acc Hvoc H; cbn [fold_left]; [exact H|].
  apply IHt; [intros x Hx; apply Hvoc; now right|].
  destruct (any_keyword (snd tp) _); [|exact H]. cbn [snd]. unfold store_sample.
  destruct (Dict.get (snd acc) (fst tp ++ "_feedback")) as [[l|d|l]|];
    try (apply set_keys_incl; [exact H | apply Hvoc; now left]).
  destruct (List.length l <? 5)%nat; [|exact H].
  apply set_keys_incl; [exact H | apply Hvoc; now left].
Qed.

Lemma pr_reviews_keys (w : World) (limit : Z) (r : Refresher) :
  incl (Dict.keys (metrics r)) metric_vocabulary ->
  incl (Dict.keys (findings r)) finding_vocabulary ->
  incl (Dict.keys (metrics (analyze_pr_reviews w limit r))) metric_vocabulary
  /\ incl (Dict.keys (findings (analyze_pr_reviews w limit r))) finding_vocabulary.
Proof.
  intros Hm Hf. unfold analyze_pr_reviews.
  destruct (gh_pr_list w limit) as [| | |prs]; try (now split).
  rewrite fold_reviews_flat.
  pose proof (reviews_keys (flat_map pr_reviews (filter (touches_area (area r)) prs))
                (Dict.empty, findings r) Hf) as Hk.
  destruct (fold_left analyze_review _ _) as [themes f].
  cbn [metrics findings with_metrics with_findings snd] in *. split.
  - apply set_keys_incl; [exact Hm | right; now left].
  - apply set_keys_incl; [exact Hk | right; now left].
Qed.

(** X17. The keys of a run are drawn from a closed vocabulary: after the
    three analysis phases of a new refresher (which always return), every
    key of [metrics] is [total_commits], [relevant_prs], [total_files] or
    [tech_] followed by one of the six technologies, and every key of
    [findings] is [refactor_commits], [review_themes], [file_types],
    [naming_conventions] or one of the eight themes followed by
    [_feedback]. *)
Theorem closed_vocabulary :
  forall (w : World) (commit_days pr_limit : Z) (a : string) (root : Path) (c : Config),
    exists r3,
      analysis_phases w commit_days pr_limit (new_refresher a root c) = Ok r3
      /\ incl (Dict.keys (metrics r3)) metric_vocabulary
      /\ incl (Dict.keys (findings r3)) finding_vocabulary.
Proof.
  intros w days limit a root c. unfold analysis_phases.
  destruct (git_history_keys w days (new_refresher a root c)) as [Hm1 Hf1];
    try (intros x []).
  destruct (pr_reviews_keys w limit _ Hm1 Hf1) as [Hm2 Hf2].
  set (r2 := analyze_pr_reviews w limit _) in *.
  destruct (analyze_file_patterns_total w r2) as [r3 H3]. exists r3.
  split; [exact H3|]. revert H3. unfold analyze_file_patterns.
  destruct (area_tree w) as [children|]; [|intros H; injection H as <-; now split].
  destruct (fold_left count_entry _ _) as [ft total].
  destruct (fold_result name_entry _ _) as [np|]; [|discriminate]. cbn [bind].
  intros H. injection H as <-. cbn [metrics findings with_metrics with_findings]. split.
  - apply set_keys_incl; [exact Hm2 | right; right; now left].
  - assert (Hft : incl (Dict.keys (Dict.set (findings r2) "file_types"
                                     (Counts (Dict.of_items (most_common 10 ft)))))
                       finding_vocabulary).
    { apply set_keys_incl; [exact Hf2 | right; right; now left]. }
    destruct (is_empty np); [exact Hft|].
    apply set_keys_incl; [exact Hft | right; right; right; now left].
Qed.

(** ** Recommendations *)

(** X18. The rule table yields at most six recommendations and never both
    TypeScript advices; when every count it reads stays within its
    threshold there is none, and the Recommendations section is left out of
    the document. *)
Theorem recommendations_bounded :
  forall (r : Refresher),
    (List.length (generate_recommendations r) <= 6)%nat
    /\ ~ (In rec_strict_typescript (generate_recommendations r)
          /\ In rec_typescript_adoption (generate_recommendations r))
    /\ (count (metrics r) "tech_typescript" <= 5 ->
        count (metrics r) "tech_testing" <= 8 ->
        count (metrics r) "tech_react" <= 10 ->
        theme_count (findings r) "testing" <= 5 ->
        theme_count (findings r) "performance" <= 3 ->
        theme_count (findings r) "code_organization" <= 5 ->
        theme_count (findings r) "error_handling" <= 3 ->
        generate_recommendations r = [] /\ recommendations_section r = EmptyString).
Proof.
  intros r. unfold recommendations_section, generate_recommendations.
  set (ts := count (metrics r) "tech_typescript").
  set (tests := count (metrics r) "tech_testing").
  set (react := count (metrics r) "tech_react").
  set (test_theme := theme_count (findings r) "testing").
  set (perf := theme_count (findings r) "performance").
  set (org := theme_count (findings r) "code_organization").
  set (err := theme_count (findings r) "error_handling").
  split; [|split].
  - destruct (10 <? ts), (5 <? ts), (5 <? test_theme), (8 <? tests), (3 <? perf),
      (5 <? org), (3 <? err), (10 <? react); cbn [orb app List.length]; lia.
  - intros [H1 H2]. rewrite !in_app_iff in H1, H2.
    repeat match goal with
           | H : _ \/ _ |- _ => destruct H
           end;
      repeat match goal with
             | H : In _ (if ?b then _ else _) |- _ => destruct b
             | H : In _ _ |- _ => progress cbn [In] in H
             | H : _ \/ False |- _ => destruct H as [H | []]
             | H : False |- _ => contradiction
             | H : ?x = ?x |- _ => clear H
             | H : _ = _ |- _ => vm_compute in H; discriminate H
             end.
  - intros Hts Htest Hreact Htt Hperf Horg Herr.
    destruct (Z.ltb_spec 10 ts); [lia|]. destruct (Z.ltb_spec 5 ts); [lia|].
    destruct (Z.ltb_spec 5 test_theme); [lia|]. destruct (Z.ltb_spec 8 tests); [lia|].
    destruct (Z.ltb_spec 3 perf); [lia|]. destruct (Z.ltb_spec 5 org); [lia|].
    destruct (Z.ltb_spec 3 err); [lia|]. destruct (Z.ltb_spec 10 react); [lia|].
    split; reflexivity.
Qed.

(** ** Reading a commit count back *)










(** ** Comparing two documents *)




